(** * BeagleBone LED/button kernel module: a shallow embedding

    The module [BeagleBone_LED-Button.c] drives two LEDs from a kernel
    thread and switches the rendering mode from a GPIO interrupt.  The file
    scope variables of the C file become the record [globals]; the kernel
    services the module calls (GPIO, IRQ, kthread, printk) are modelled by a
    small kernel state together with a log of the calls in program order.
    Every C function is a computation in the state monad [K] over both. *)

From stdpp Require Import gmap strings list.

Local Open Scope Z_scope.

(** ** Machine integers *)

(** [unsigned int] is 32 bits wide on the target. *)
Definition UINT_BITS : Z := 32.
Definition UINT_MODULUS : Z := 2 ^ UINT_BITS.

(** Conversion to [unsigned int]: reduction modulo 2^32. *)
Definition to_uint (z : Z) : Z := z mod UINT_MODULUS.

(** ** Constants of the kernel headers used by the module *)

Definition ENODEV : Z := 19.
Definition EINVAL : Z := 22.
Definition EBUSY : Z := 16.
Definition MAX_ERRNO : Z := 4095.
Definition IRQF_TRIGGER_RISING : Z := 1.
Definition NULL : Z := 0.

Inductive irqreturn : Type := IRQ_NONE | IRQ_HANDLED | IRQ_WAKE_THREAD.

Inductive klevel : Type := KERN_INFO | KERN_ALERT.

Inductive task_state : Type := TASK_RUNNING | TASK_INTERRUPTIBLE.

(** A task pointer is its address seen as a signed machine word; the error
    pointers are the addresses of the last [MAX_ERRNO] bytes. *)
Definition IS_ERR (ptr : Z) : bool := (- MAX_ERRNO <=? ptr) && (ptr <? 0).
Definition PTR_ERR (ptr : Z) : Z := ptr.

(** ** The module's file-scope state *)

(** [enum modes {OFF, ON, FLASH}] *)
Inductive modes : Type := OFF | ON | FLASH.

Definition modes_eqb (a b : modes) : bool :=
  match a, b with
  | OFF, OFF | ON, ON | FLASH, FLASH => true
  | _, _ => false
  end.

Record globals : Type := mkGlobals {
  gpioLedRED : Z;
  gpioLedGREEN : Z;
  gpioButton : Z;
  irqNumber : Z;
  numberPresses : Z;
  currentStateLedRED : bool;
  currentStateLedGREEN : bool;
  ledOn : bool;
  task : Z;
  mode : modes;
  blinkPeriod : Z
}.

(** The initialisers of the C file; [irqNumber] and [task] have none and
    start zeroed. *)
Definition initial_globals : globals :=
  {| gpioLedRED := 66;
     gpioLedGREEN := 67;
     gpioButton := 69;
     irqNumber := 0;
     numberPresses := 0;
     currentStateLedRED := true;
     currentStateLedGREEN := false;
     ledOn := false;
     task := NULL;
     mode := FLASH;
     blinkPeriod := 1000 |}.

Definition set_irqNumber (v : Z) (g : globals) : globals :=
  mkGlobals (gpioLedRED g) (gpioLedGREEN g) (gpioButton g) v
    (numberPresses g) (currentStateLedRED g) (currentStateLedGREEN g)
    (ledOn g) (task g) (mode g) (blinkPeriod g).

Definition set_numberPresses (v : Z) (g : globals) : globals :=
  mkGlobals (gpioLedRED g) (gpioLedGREEN g) (gpioButton g) (irqNumber g)
    v (currentStateLedRED g) (currentStateLedGREEN g)
    (ledOn g) (task g) (mode g) (blinkPeriod g).

Definition set_ledOn (v : bool) (g : globals) : globals :=
  mkGlobals (gpioLedRED g) (gpioLedGREEN g) (gpioButton g) (irqNumber g)
    (numberPresses g) (currentStateLedRED g) (currentStateLedGREEN g)
    v (task g) (mode g) (blinkPeriod g).

Definition set_task (v : Z) (g : globals) : globals :=
  mkGlobals (gpioLedRED g) (gpioLedGREEN g) (gpioButton g) (irqNumber g)
    (numberPresses g) (currentStateLedRED g) (currentStateLedGREEN g)
    (ledOn g) v (mode g) (blinkPeriod g).

Definition set_mode (v : modes) (g : globals) : globals :=
  mkGlobals (gpioLedRED g) (gpioLedGREEN g) (gpioButton g) (irqNumber g)
    (numberPresses g) (currentStateLedRED g) (currentStateLedGREEN g)
    (ledOn g) (task g) v (blinkPeriod g).

(** ** The kernel as the module sees it *)

(** One constructor per kernel service the module calls, with the
    arguments of the call. *)
Inductive kcall : Type :=
  | Kprintk (lvl : klevel) (fmt : string) (args : list Z)
  | Kgpio_request (gpio : Z) (label : string)
  | Kgpio_direction_output (gpio : Z) (value : bool)
  | Kgpio_direction_input (gpio : Z)
  | Kgpio_set_debounce (gpio : Z) (debounce : Z)
  | Kgpio_export (gpio : Z) (direction_may_change : bool)
  | Kgpio_get_value (gpio : Z)
  | Kgpio_set_value (gpio : Z) (value : bool)
  | Kgpio_to_irq (gpio : Z)
  | Krequest_irq (irq : Z) (flags : Z) (name : string) (dev : Z)
  | Kkthread_run (name : string)
  | Kkthread_stop (k : Z)
  | Kgpio_unexport (gpio : Z)
  | Kfree_irq (irq : Z) (dev : Z)
  | Kgpio_free (gpio : Z)
  | Kset_current_state (st : task_state)
  | Kmsleep (msecs : Z).

(** What the board and the rest of the kernel answer; none of it is decided
    by the module. *)
Record platform : Type := mkPlatform {
  plat_gpio_is_valid : Z → bool;
  plat_gpio_request : Z → Z;
  plat_gpio_get_value : Z → Z;
  plat_gpio_to_irq : Z → Z;
  plat_request_irq : Z → Z;
  plat_kthread_run : Z
}.

Record kernel : Type := mkKernel {
  pin_level : gmap Z bool;
  requested : gset Z;
  exported : gset Z;
  irq_lines : gset Z;
  led_thread : bool;
  klog : list kcall
}.

Definition initial_kernel : kernel :=
  {| pin_level := ∅; requested := ∅; exported := ∅; irq_lines := ∅;
     led_thread := false; klog := [] |}.

Record world : Type := mkWorld { gl : globals; ke : kernel }.

Definition boot : world := {| gl := initial_globals; ke := initial_kernel |}.

(** ** The state monad of the embedding *)

Definition K (A : Type) : Type := world → A * world.

Definition ret {A : Type} (a : A) : K A := λ w, (a, w).

Definition bind {A B : Type} (m : K A) (f : A → K B) : K B :=
  λ w, let (a, w') := m w in f a w'.

Declare Scope kernel_scope.
Delimit Scope kernel_scope with kern.
Notation "'let*' x ':=' m 'in' k" := (bind m (λ x, k))
  (at level 10, x name, m at level 100, k at level 200) : kernel_scope.
Notation "m '>>>' k" := (bind m (λ _, k))
  (at level 199, right associativity) : kernel_scope.
Local Open Scope kernel_scope.

(** Read a file-scope variable. *)
Definition load {A : Type} (field : globals → A) : K A := λ w, (field (gl w), w).

(** Assign a file-scope variable. *)
Definition store {A : Type} (setter : A → globals → globals) (v : A) : K unit :=
  λ w, (tt, {| gl := setter v (gl w); ke := ke w |}).

Definition on_kernel (f : kernel → kernel) : K unit :=
  λ w, (tt, {| gl := gl w; ke := f (ke w) |}).

Definition log_call (c : kcall) (k : kernel) : kernel :=
  mkKernel (pin_level k) (requested k) (exported k) (irq_lines k)
    (led_thread k) (klog k ++ [c]).

Definition with_pin_level (f : gmap Z bool → gmap Z bool) (k : kernel) : kernel :=
  mkKernel (f (pin_level k)) (requested k) (exported k) (irq_lines k)
    (led_thread k) (klog k).

Definition with_requested (f : gset Z → gset Z) (k : kernel) : kernel :=
  mkKernel (pin_level k) (f (requested k)) (exported k) (irq_lines k)
    (led_thread k) (klog k).

Definition with_exported (f : gset Z → gset Z) (k : kernel) : kernel :=
  mkKernel (pin_level k) (requested k) (f (exported k)) (irq_lines k)
    (led_thread k) (klog k).

Definition with_irq_lines (f : gset Z → gset Z) (k : kernel) : kernel :=
  mkKernel (pin_level k) (requested k) (exported k) (f (irq_lines k))
    (led_thread k) (klog k).

Definition with_led_thread (f : bool → bool) (k : kernel) : kernel :=
  mkKernel (pin_level k) (requested k) (exported k) (irq_lines k)
    (f (led_thread k)) (klog k).

(** ** Kernel services *)

Definition printk (lvl : klevel) (fmt : string) (args : list Z) : K unit :=
  on_kernel (log_call (Kprintk lvl fmt args)).

Definition gpio_is_valid (P : platform) (gpio : Z) : bool :=
  plat_gpio_is_valid P gpio.

(** A pin is held by the module from a successful [gpio_request] until
    [gpio_free]. *)
Definition gpio_request (P : platform) (gpio : Z) (label : string) : K Z :=
  on_kernel (log_call (Kgpio_request gpio label)) >>>
  let rc := plat_gpio_request P gpio in
  on_kernel (with_requested (λ s, if rc =? 0 then {[gpio]} ∪ s else s)) >>>
  ret rc.

Definition gpio_direction_output (gpio : Z) (value : bool) : K unit :=
  on_kernel (log_call (Kgpio_direction_output gpio value)) >>>
  on_kernel (with_pin_level (λ m, <[gpio := value]> m)).

Definition gpio_direction_input (gpio : Z) : K unit :=
  on_kernel (log_call (Kgpio_direction_input gpio)).

Definition gpio_set_debounce (gpio : Z) (debounce : Z) : K unit :=
  on_kernel (log_call (Kgpio_set_debounce gpio debounce)).

Definition gpio_export (gpio : Z) (direction_may_change : bool) : K unit :=
  on_kernel (log_call (Kgpio_export gpio direction_may_change)) >>>
  on_kernel (with_exported (λ s, {[gpio]} ∪ s)).

Definition gpio_get_value (P : platform) (gpio : Z) : K Z :=
  on_kernel (log_call (Kgpio_get_value gpio)) >>>
  ret (plat_gpio_get_value P gpio).

Definition gpio_set_value (gpio : Z) (value : bool) : K unit :=
  on_kernel (log_call (Kgpio_set_value gpio value)) >>>
  on_kernel (with_pin_level (λ m, <[gpio := value]> m)).

Definition gpio_to_irq (P : platform) (gpio : Z) : K Z :=
  on_kernel (log_call (Kgpio_to_irq gpio)) >>>
  ret (plat_gpio_to_irq P gpio).

Definition request_irq (P : platform) (irq flags : Z) (name : string) (dev : Z) : K Z :=
  on_kernel (log_call (Krequest_irq irq flags name dev)) >>>
  let rc := plat_request_irq P irq in
  on_kernel (with_irq_lines (λ s, if rc =? 0 then {[irq]} ∪ s else s)) >>>
  ret rc.

Definition kthread_run (P : platform) (name : string) : K Z :=
  on_kernel (log_call (Kkthread_run name)) >>>
  let ptr := plat_kthread_run P in
  on_kernel (with_led_thread (λ running, if IS_ERR ptr then running else true)) >>>
  ret ptr.

(** [kthread_stop] returns once the thread has exited. *)
Definition kthread_stop (k : Z) : K unit :=
  on_kernel (log_call (Kkthread_stop k)) >>>
  on_kernel (with_led_thread (λ _, false)).

Definition gpio_unexport (gpio : Z) : K unit :=
  on_kernel (log_call (Kgpio_unexport gpio)) >>>
  on_kernel (with_exported (λ s, s ∖ {[gpio]})).

Definition free_irq (irq : Z) (dev : Z) : K unit :=
  on_kernel (log_call (Kfree_irq irq dev)) >>>
  on_kernel (with_irq_lines (λ s, s ∖ {[irq]})).

Definition gpio_free (gpio : Z) : K unit :=
  on_kernel (log_call (Kgpio_free gpio)) >>>
  on_kernel (with_requested (λ s, s ∖ {[gpio]})).

Definition set_current_state (st : task_state) : K unit :=
  on_kernel (log_call (Kset_current_state st)).

Definition msleep (msecs : Z) : K unit :=
  on_kernel (log_call (Kmsleep msecs)).

(** ** [ebbgpio_irq_handler] *)

Definition ebbgpio_irq_handler (irq dev_id regs : Z) : K irqreturn :=
  let* n := load numberPresses in
  printk KERN_INFO "Button pressed count is %d\n" [n] >>>
  let* m := load mode in
  (if modes_eqb m FLASH then store set_mode ON else store set_mode FLASH) >>>
  let* n := load numberPresses in
  store set_numberPresses (to_uint (n + 1)) >>>
  ret IRQ_HANDLED.

(** ** [kThread_run] *)

(** One pass through the body of the [while] loop. *)
Definition kThread_body : K unit :=
  set_current_state TASK_RUNNING >>>
  let* m := load mode in
  (if modes_eqb m FLASH then
     let* l := load ledOn in store set_ledOn (negb l)
   else
     let* m' := load mode in
     if modes_eqb m' ON then store set_ledOn true
     else store set_ledOn false) >>>
  let* green := load gpioLedGREEN in
  let* l := load ledOn in
  gpio_set_value green l >>>
  let* red := load gpioLedRED in
  let* l := load ledOn in
  gpio_set_value red l >>>
  set_current_state TASK_INTERRUPTIBLE >>>
  let* p := load blinkPeriod in
  msleep (p ÷ 3).

(** The loop, driven by the successive answers of [kthread_should_stop].
    [None] is returned when the answers run out with the thread still in
    the loop. *)
Fixpoint kThread_loop (should_stop : list bool) : K (option Z) :=
  match should_stop with
  | [] => ret None
  | true :: _ => ret (Some 0)
  | false :: rest => kThread_body >>> kThread_loop rest
  end.

Definition kThread_run (arg : Z) (should_stop : list bool) : K (option Z) :=
  printk KERN_INFO "EBB LED: Thread has started running \n" [] >>>
  kThread_loop should_stop.

(** ** [ebbgpio_init] *)

Definition ebbgpio_init (P : platform) : K Z :=
  let result := 0 in
  printk KERN_INFO "GPIO_TEST: Initializing the GPIO_TEST LKM\n" [] >>>
  let* red := load gpioLedRED in
  let* green := load gpioLedGREEN in
  if negb (gpio_is_valid P red) && negb (gpio_is_valid P green) then
    printk KERN_INFO "GPIO_TEST: invalid LED:RED/GREEN GPIO\n" [] >>>
    ret (- ENODEV)
  else
    let* _ := gpio_request P red "sysfs" in
    let* _ := gpio_request P green "sysfs" in
    let* cur_red := load currentStateLedRED in
    gpio_direction_output red cur_red >>>
    let* cur_green := load currentStateLedGREEN in
    gpio_direction_output green cur_green >>>
    gpio_export red false >>>
    gpio_export green false >>>
    let* button := load gpioButton in
    let* _ := gpio_request P button "sysfs" in
    gpio_direction_input button >>>
    gpio_set_debounce button 200 >>>
    gpio_export button false >>>
    let* level := gpio_get_value P button in
    printk KERN_INFO "GPIO_TEST: The button state is currently: %d\n" [level] >>>
    let* irq := gpio_to_irq P button in
    store set_irqNumber (to_uint irq) >>>
    let* irqn := load irqNumber in
    printk KERN_INFO "GPIO_TEST: The button is mapped to IRQ: %d\n" [irqn] >>>
    let* irqn := load irqNumber in
    let* result := request_irq P irqn IRQF_TRIGGER_RISING "ebb_gpio_handler" NULL in
    printk KERN_INFO "GPIO_TEST: The interrupt request result is: %d\n" [result] >>>
    let* t := kthread_run P "LED_thread" in
    store set_task t >>>
    let* t := load task in
    if IS_ERR t then
      printk KERN_ALERT "EBB LED: failed to create the task\n" [] >>>
      let* t := load task in
      ret (PTR_ERR t)
    else
      ret result.

(** ** [ebbgpio_exit] *)

Definition ebbgpio_exit (P : platform) : K unit :=
  let* t := load task in
  kthread_stop t >>>
  let* button := load gpioButton in
  let* level := gpio_get_value P button in
  printk KERN_INFO "GPIO_TEST: The button state is currently: %d\n" [level] >>>
  let* n := load numberPresses in
  printk KERN_INFO "GPIO_TEST: The button was pressed %d times\n" [n] >>>
  let* red := load gpioLedRED in
  gpio_set_value red false >>>
  let* green := load gpioLedGREEN in
  gpio_set_value green false >>>
  gpio_unexport red >>>
  gpio_unexport green >>>
  let* irqn := load irqNumber in
  free_irq irqn NULL >>>
  gpio_unexport button >>>
  gpio_free red >>>
  gpio_free green >>>
  gpio_free button >>>
  printk KERN_INFO "GPIO_TEST: Goodbye from the LKM!\n" [].

(** ** Running the module *)

(** State after a computation, and its result. *)
Definition exec {A : Type} (m : K A) (w : world) : world := snd (m w).
Definition eval {A : Type} (m : K A) (w : world) : A := fst (m w).

(** One delivery of the button interrupt. *)
Definition irq_step (w : world) : world :=
  exec (let* irqn := load irqNumber in ebbgpio_irq_handler irqn NULL NULL) w.

(** [n] deliveries in a row; the count is binary so that counts beyond the
    range of [unsigned int] can be written down. *)
Definition irq_burst (n : N) (w : world) : world := N.iter n irq_step w.

(** One pass of the LED thread through its loop. *)
Definition tick (w : world) : world := exec kThread_body w.

Definition ticks (k : nat) (w : world) : world := Nat.iter k tick w.

(** What can happen to a loaded module: the button interrupt fires or the
    LED thread runs one pass. *)
Inductive kevent : Type := EvIrq | EvTick.

Definition step (e : kevent) (w : world) : world :=
  match e with
  | EvIrq => irq_step w
  | EvTick => tick w
  end.

Definition run (sched : list kevent) (w : world) : world :=
  fold_left (λ w e, step e w) sched w.

(** The calls logged on the way from [w] to a later world [w']. *)
Definition new_calls (w w' : world) : list kcall :=
  drop (length (klog (ke w))) (klog (ke w')).

(** ** Observations on the call log *)

(** Milliseconds asked of [msleep]. *)
Definition sleep_of (c : kcall) : Z :=
  match c with
  | Kmsleep msecs => msecs
  | _ => 0
  end.

Definition slept (calls : list kcall) : Z :=
  foldr (λ c acc, sleep_of c + acc) 0 calls.

(** The output writes, pin and level, in order. *)
Definition write_of (c : kcall) : option (Z * bool) :=
  match c with
  | Kgpio_set_value gpio value => Some (gpio, value)
  | _ => None
  end.

Definition gpio_writes (calls : list kcall) : list (Z * bool) :=
  omap write_of calls.

(** Calls that give a resource back or stop the thread. *)
Definition is_release (c : kcall) : bool :=
  match c with
  | Kgpio_unexport _ | Kgpio_free _ | Kfree_irq _ _ | Kkthread_stop _ => true
  | _ => false
  end.

(** The calls of one pass of the LED thread that starts in [w]. *)
Definition tick_calls (w : world) : list kcall :=
  let v := ledOn (gl (tick w)) in
  [ Kset_current_state TASK_RUNNING;
    Kgpio_set_value (gpioLedGREEN (gl w)) v;
    Kgpio_set_value (gpioLedRED (gl w)) v;
    Kset_current_state TASK_INTERRUPTIBLE;
    Kmsleep (blinkPeriod (gl w) ÷ 3) ].

Fixpoint ticks_calls (k : nat) (w : world) : list kcall :=
  match k with
  | O => []
  | S k' => ticks_calls k' w ++ tick_calls (ticks k' w)
  end.

(** The LED boolean after each of [k] passes that start in [w]. *)
Definition rendered (k : nat) (w : world) : list bool :=
  map (λ i, ledOn (gl (ticks (S i) w))) (seq 0 k).

(** ** The specification's vocabulary *)

(** The rendering rule of the Blink Task, as the specification words it. *)
Definition next_led (m : modes) (previous : bool) : bool :=
  match m with
  | FLASH => negb previous
  | ON => true
  | OFF => false
  end.

(** [k] booleans that alternate, the first being [v]. *)
Fixpoint alternating (k : nat) (v : bool) : list bool :=
  match k with
  | O => []
  | S k' => v :: alternating k' (negb v)
  end.

(** Number of places where a sequence of booleans, entered at [previous],
    changes value. *)
Fixpoint flips (previous : bool) (vs : list bool) : nat :=
  match vs with
  | [] => O
  | v :: vs' => ((if eqb previous v then 0 else 1) + flips v vs')%nat
  end.

(** The specification's reading of the press counter: as many presses as
    interrupts delivered since load. *)
Definition presses_equal_deliveries (n : N) : Prop :=
  numberPresses (gl (irq_burst n boot)) = Z.of_N n.

(** The specification's five shutdown effects, in the order it lists them. *)
Inductive shutdown_effect : Type :=
  | StopBlinkTask
  | LedsOff
  | ReleasePins
  | UnregisterInterrupt
  | ReportPresses.

Definition effect_rank (e : shutdown_effect) : nat :=
  match e with
  | StopBlinkTask => 1
  | LedsOff => 2
  | ReleasePins => 3
  | UnregisterInterrupt => 4
  | ReportPresses => 5
  end.

Definition presses_report_fmt : string :=
  "GPIO_TEST: The button was pressed %d times\n".

Definition shutdown_effect_of (c : kcall) : option shutdown_effect :=
  match c with
  | Kkthread_stop _ => Some StopBlinkTask
  | Kgpio_set_value _ false => Some LedsOff
  | Kgpio_unexport _ | Kgpio_free _ => Some ReleasePins
  | Kfree_irq _ _ => Some UnregisterInterrupt
  | Kprintk _ fmt _ =>
      if String.eqb fmt presses_report_fmt then Some ReportPresses else None
  | _ => None
  end.

Definition effect_ranks (calls : list kcall) : list nat :=
  omap (λ c, effect_rank <$> shutdown_effect_of c) calls.

Fixpoint nondecreasing (l : list nat) : bool :=
  match l with
  | a :: (b :: _) as rest => (a <=? b)%nat && nondecreasing rest
  | _ => true
  end.

(** The order of the specification: every effect happens, and none before
    an effect listed ahead of it. *)
Definition spec_shutdown_order (calls : list kcall) : bool :=
  let ranks := effect_ranks calls in
  nondecreasing ranks && forallb (λ r, existsb (Nat.eqb r) ranks) [1; 2; 3; 4; 5]%nat.

(** The specification's startup policy for a failed interrupt
    registration: an error comes back and the module holds nothing more
    than before the call. *)
Definition spec_irq_failure_released (P : platform) (w : world) : Prop :=
  let w' := exec (ebbgpio_init P) w in
  eval (ebbgpio_init P) w ≠ 0 ∧
  requested (ke w') = requested (ke w) ∧
  exported (ke w') = exported (ke w) ∧
  led_thread (ke w') = led_thread (ke w).

(** ** Boards used as concrete inputs *)

(** A board on which every request succeeds. *)
Definition board : platform :=
  {| plat_gpio_is_valid := λ gpio, (0 <=? gpio) && (gpio <? 512);
     plat_gpio_request := λ _, 0;
     plat_gpio_get_value := λ _, 0;
     plat_gpio_to_irq := λ gpio, gpio + 96;
     plat_request_irq := λ _, 0;
     plat_kthread_run := -1059192832 |}.

(** The same board with the button's interrupt line already taken. *)
Definition board_irq_busy : platform :=
  {| plat_gpio_is_valid := plat_gpio_is_valid board;
     plat_gpio_request := plat_gpio_request board;
     plat_gpio_get_value := plat_gpio_get_value board;
     plat_gpio_to_irq := plat_gpio_to_irq board;
     plat_request_irq := λ _, - EBUSY;
     plat_kthread_run := plat_kthread_run board |}.

(** A board that has every pin of the module but the green LED's. *)
Definition board_without_green : platform :=
  {| plat_gpio_is_valid := λ gpio, plat_gpio_is_valid board gpio && negb (gpio =? 67);
     plat_gpio_request := λ gpio, if gpio =? 67 then - EINVAL else 0;
     plat_gpio_get_value := plat_gpio_get_value board;
     plat_gpio_to_irq := plat_gpio_to_irq board;
     plat_request_irq := plat_request_irq board;
     plat_kthread_run := plat_kthread_run board |}.

(** The module right after a successful load on [board]. *)
Definition loaded : world := exec (ebbgpio_init board) boot.

(** A world in which [mode] holds [OFF]. *)
Definition boot_off : world :=
  {| gl := set_mode OFF initial_globals; ke := initial_kernel |}.

(** ** Vocabulary of the further properties *)

Definition ENOMEM : Z := 12.

(** The mode the handler assigns when it finds [m]. *)
Definition toggled (m : modes) : modes :=
  if modes_eqb m FLASH then ON else FLASH.

(** Interrupt deliveries and thread passes of a schedule. *)
Fixpoint irq_count (sched : list kevent) : nat :=
  match sched with
  | [] => O
  | EvIrq :: rest => S (irq_count rest)
  | EvTick :: rest => irq_count rest
  end.

Fixpoint tick_count (sched : list kevent) : nat :=
  match sched with
  | [] => O
  | EvIrq :: rest => tick_count rest
  | EvTick :: rest => S (tick_count rest)
  end.

(** Answers of [kthread_should_stop] before the first positive one. *)
Fixpoint leading_false (should_stop : list bool) : nat :=
  match should_stop with
  | false :: rest => S (leading_false rest)
  | _ => O
  end.

(** The three pins of the module. *)
Definition module_pins (w : world) : gset Z :=
  {[ gpioLedRED (gl w); gpioLedGREEN (gl w); gpioButton (gl w) ]}.

(** The interrupt number [ebbgpio_init] stores for the button. *)
Definition button_irq (P : platform) (w : world) : Z :=
  to_uint (plat_gpio_to_irq P (gpioButton (gl w))).

(** The calls of [ebbgpio_init] from its first [gpio_request] to
    [kthread_run], for a module whose globals are those of [w]. *)
Definition init_calls (P : platform) (w : world) : list kcall :=
  let red := gpioLedRED (gl w) in
  let green := gpioLedGREEN (gl w) in
  let button := gpioButton (gl w) in
  [ Kgpio_request red "sysfs";
    Kgpio_request green "sysfs";
    Kgpio_direction_output red (currentStateLedRED (gl w));
    Kgpio_direction_output green (currentStateLedGREEN (gl w));
    Kgpio_export red false;
    Kgpio_export green false;
    Kgpio_request button "sysfs";
    Kgpio_direction_input button;
    Kgpio_set_debounce button 200;
    Kgpio_export button false;
    Kgpio_get_value button;
    Kprintk KERN_INFO "GPIO_TEST: The button state is currently: %d\n"
      [plat_gpio_get_value P button];
    Kgpio_to_irq button;
    Kprintk KERN_INFO "GPIO_TEST: The button is mapped to IRQ: %d\n"
      [button_irq P w];
    Krequest_irq (button_irq P w) IRQF_TRIGGER_RISING "ebb_gpio_handler" NULL;
    Kprintk KERN_INFO "GPIO_TEST: The interrupt request result is: %d\n"
      [plat_request_irq P (button_irq P w)];
    Kkthread_run "LED_thread" ].

(** The pins held once [gpio_request] has answered for [gpio]. *)
Definition granted (P : platform) (gpio : Z) (held : gset Z) : gset Z :=
  if plat_gpio_request P gpio =? 0 then {[gpio]} ∪ held else held.

(** A board without any usable GPIO. *)
Definition board_no_gpio : platform :=
  {| plat_gpio_is_valid := λ _, false;
     plat_gpio_request := λ _, - EINVAL;
     plat_gpio_get_value := λ _, 0;
     plat_gpio_to_irq := λ _, - EINVAL;
     plat_request_irq := λ _, - EINVAL;
     plat_kthread_run := plat_kthread_run board |}.

(** [board] out of memory for a new thread. *)
Definition board_thread_fails : platform :=
  {| plat_gpio_is_valid := plat_gpio_is_valid board;
     plat_gpio_request := plat_gpio_request board;
     plat_gpio_get_value := plat_gpio_get_value board;
     plat_gpio_to_irq := plat_gpio_to_irq board;
     plat_request_irq := plat_request_irq board;
     plat_kthread_run := - ENOMEM |}.

(** [board] with pins that cannot raise interrupts. *)
Definition board_bad_irq : platform :=
  {| plat_gpio_is_valid := plat_gpio_is_valid board;
     plat_gpio_request := plat_gpio_request board;
     plat_gpio_get_value := plat_gpio_get_value board;
     plat_gpio_to_irq := λ _, - EINVAL;
     plat_request_irq := λ _, - EINVAL;
     plat_kthread_run := plat_kthread_run board |}.

(** [board] with the LED pins as its only valid pins and every pin
    already taken. *)
Definition board_pins_taken : platform :=
  {| plat_gpio_is_valid := λ gpio, (gpio =? 66) || (gpio =? 67);
     plat_gpio_request := λ _, - EBUSY;
     plat_gpio_get_value := plat_gpio_get_value board;
     plat_gpio_to_irq := plat_gpio_to_irq board;
     plat_request_irq := plat_request_irq board;
     plat_kthread_run := plat_kthread_run board |}.

(** A module whose counter stands at the largest [unsigned int]. *)
Definition boot_last_press : world :=
  {| gl := set_numberPresses (UINT_MODULUS - 1) initial_globals;
     ke := initial_kernel |}.

(** * Properties *)

Arguments to_uint : simpl never.

(** Unfold the monad and the kernel services, and nothing of the map and
    set library. *)
Ltac kstep :=
  cbv beta iota zeta delta
    [exec eval bind ret load store on_kernel log_call
     with_pin_level with_requested with_exported with_irq_lines
     with_led_thread printk gpio_request gpio_direction_output
     gpio_direction_input gpio_set_debounce gpio_export gpio_get_value
     gpio_set_value gpio_to_irq request_irq kthread_run kthread_stop
     gpio_unexport free_irq gpio_free set_current_state msleep
     gpio_is_valid
     ebbgpio_irq_handler kThread_body ebbgpio_init ebbgpio_exit
     irq_step tick new_calls tick_calls
     set_irqNumber set_numberPresses set_ledOn set_task set_mode
     modes_eqb PTR_ERR
     gl ke fst snd
     gpioLedRED gpioLedGREEN gpioButton irqNumber numberPresses
     currentStateLedRED currentStateLedGREEN ledOn task mode blinkPeriod
     pin_level requested exported irq_lines led_thread klog].

(** Bring a log built by successive appends into the shape [old ++ new]. *)
Ltac log_norm := rewrite <- ?app_assoc; cbn [app].

(** ** The interrupt handler *)

Section Handler.

Variables irq dev_id regs : Z.
Variable w : world.

Let after : world := exec (ebbgpio_irq_handler irq dev_id regs) w.

Lemma handler_returns :
  eval (ebbgpio_irq_handler irq dev_id regs) w = IRQ_HANDLED.
Proof. destruct w as [[] []]. kstep. by destruct mode0. Qed.

Lemma handler_mode :
  mode (gl after) = if modes_eqb (mode (gl w)) FLASH then ON else FLASH.
Proof. subst after. destruct w as [[] []]. kstep. by destruct mode0. Qed.

Lemma handler_presses :
  numberPresses (gl after) = to_uint (numberPresses (gl w) + 1).
Proof. subst after. destruct w as [[] []]. kstep. by destruct mode0. Qed.

Lemma handler_calls :
  klog (ke after) =
  klog (ke w) ++ [Kprintk KERN_INFO "Button pressed count is %d\n" [numberPresses (gl w)]].
Proof. subst after. destruct w as [[] []]. kstep. by destruct mode0. Qed.

End Handler.

Lemma irq_step_handler w :
  irq_step w = exec (ebbgpio_irq_handler (irqNumber (gl w)) NULL NULL) w.
Proof. by destruct w as [[] []]. Qed.

Lemma irq_step_mode w :
  mode (gl (irq_step w)) = if modes_eqb (mode (gl w)) FLASH then ON else FLASH.
Proof. rewrite irq_step_handler. apply handler_mode. Qed.

Lemma irq_step_presses w :
  numberPresses (gl (irq_step w)) = to_uint (numberPresses (gl w) + 1).
Proof. rewrite irq_step_handler. apply handler_presses. Qed.

Lemma irq_burst_succ n w : irq_burst (N.succ n) w = irq_step (irq_burst n w).
Proof. unfold irq_burst. apply N.iter_succ. Qed.

Lemma to_uint_succ z : to_uint (to_uint z + 1) = to_uint (z + 1).
Proof. unfold to_uint. apply Z.add_mod_idemp_l. discriminate. Qed.

(** After [n] deliveries from [boot]: the mode by the parity of [n], the
    counter by [n] reduced to 32 bits. *)
Lemma irq_burst_boot (n : N) :
  mode (gl (irq_burst n boot)) = (if N.even n then FLASH else ON) ∧
  numberPresses (gl (irq_burst n boot)) = to_uint (Z.of_N n).
Proof.
  induction n as [| n [IHm IHc]] using N.peano_ind.
  - done.
  - rewrite irq_burst_succ, irq_step_mode, irq_step_presses, IHm, IHc.
    rewrite N.even_succ, <- N.negb_even, N2Z.inj_succ, to_uint_succ.
    split; [by destruct (N.even n) | done].
Qed.

(** [C1], as amended.  After [n] deliveries of the interrupt from the
    initial state the mode is [ON] for odd [n] and [FLASH] for even [n], so
    the modes seen after the successive deliveries read ON, FLASH, ON, ...;
    the press counter holds [n] reduced modulo 2^32, the width of the
    [unsigned int] it is kept in. *)
Theorem irq_burst_alternates_and_counts (n : N) :
  mode (gl (irq_burst n boot)) = (if N.odd n then ON else FLASH) ∧
  numberPresses (gl (irq_burst n boot)) = Z.of_N n mod 2 ^ 32.
Proof.
  destruct (irq_burst_boot n) as [Hm Hc]. split; [| exact Hc].
  rewrite Hm, <- N.negb_even. by destruct (N.even n).
Qed.

(** [C1], as stated, fails at 2^32 deliveries: the counter is back at 0. *)
Lemma presses_wrap_around : ¬ presses_equal_deliveries 4294967296.
Proof.
  unfold presses_equal_deliveries.
  rewrite (proj2 (irq_burst_boot 4294967296)).
  vm_compute. discriminate.
Qed.

(** ** The LED thread *)

Lemma tick_ledOn w : ledOn (gl (tick w)) = next_led (mode (gl w)) (ledOn (gl w)).
Proof. destruct w as [[] []]. kstep. by destruct mode0. Qed.

Lemma tick_globals w :
  mode (gl (tick w)) = mode (gl w) ∧
  numberPresses (gl (tick w)) = numberPresses (gl w) ∧
  gpioLedRED (gl (tick w)) = gpioLedRED (gl w) ∧
  gpioLedGREEN (gl (tick w)) = gpioLedGREEN (gl w) ∧
  blinkPeriod (gl (tick w)) = blinkPeriod (gl w).
Proof. destruct w as [[] []]. kstep. by destruct mode0. Qed.

Lemma tick_log w : klog (ke (tick w)) = klog (ke w) ++ tick_calls w.
Proof. destruct w as [[] []]. kstep. destruct mode0; by log_norm. Qed.

Lemma tick_levels w :
  pin_level (ke (tick w)) =
  <[gpioLedRED (gl w) := ledOn (gl (tick w))]>
    (<[gpioLedGREEN (gl w) := ledOn (gl (tick w))]> (pin_level (ke w))).
Proof. destruct w as [[] []]. kstep. by destruct mode0. Qed.

Lemma new_calls_app w w' calls :
  klog (ke w') = klog (ke w) ++ calls → new_calls w w' = calls.
Proof. intros H. unfold new_calls. rewrite H. apply drop_app_length. Qed.

Lemma ticks_succ k w : ticks (S k) w = tick (ticks k w).
Proof. reflexivity. Qed.

Lemma ticks_globals k w :
  mode (gl (ticks k w)) = mode (gl w) ∧
  gpioLedRED (gl (ticks k w)) = gpioLedRED (gl w) ∧
  gpioLedGREEN (gl (ticks k w)) = gpioLedGREEN (gl w) ∧
  blinkPeriod (gl (ticks k w)) = blinkPeriod (gl w).
Proof.
  induction k as [| k (IHm & IHr & IHg & IHp)]; [done |].
  rewrite ticks_succ.
  destruct (tick_globals (ticks k w)) as (-> & _ & -> & -> & ->). done.
Qed.

Lemma ticks_log k w : klog (ke (ticks k w)) = klog (ke w) ++ ticks_calls k w.
Proof.
  induction k as [| k IH]; cbn [ticks_calls].
  - by rewrite app_nil_r.
  - by rewrite ticks_succ, tick_log, IH, app_assoc.
Qed.

Lemma slept_app a b : slept (a ++ b) = slept a + slept b.
Proof. unfold slept. induction a as [| c a IH]; cbn [app foldr]; lia. Qed.

Lemma slept_ticks k w :
  slept (ticks_calls k w) = Z.of_nat k * (blinkPeriod (gl w) ÷ 3).
Proof.
  induction k as [| k IH]; [done |].
  cbn [ticks_calls]. rewrite slept_app, IH.
  destruct (ticks_globals k w) as (_ & _ & _ & Hp).
  unfold tick_calls. cbn. rewrite Hp. lia.
Qed.

Lemma alternating_snoc k v :
  alternating (S k) v = alternating k v ++ [xorb v (Nat.odd k)].
Proof.
  revert v. induction k as [| k IH]; intros v.
  - by destruct v.
  - change (alternating (S (S k)) v) with (v :: alternating (S k) (negb v)).
    rewrite IH. cbn [alternating app]. do 3 f_equal.
    rewrite Nat.odd_succ, <- Nat.negb_odd. by destruct v, (Nat.odd k).
Qed.

Lemma flips_alternating k v : flips v (alternating k (negb v)) = k.
Proof.
  revert v. induction k as [| k IH]; intros v; [done |].
  cbn [alternating flips]. rewrite IH. by destruct v.
Qed.

Lemma ticks_flash_ledOn k w :
  mode (gl w) = FLASH →
  ledOn (gl (ticks k w)) = xorb (ledOn (gl w)) (Nat.odd k).
Proof.
  intros Hm. induction k as [| k IH].
  - change (ticks 0 w) with w. by destruct (ledOn (gl w)).
  - rewrite ticks_succ, tick_ledOn, IH.
    destruct (ticks_globals k w) as (-> & _). rewrite Hm. cbn [next_led].
    rewrite Nat.odd_succ, <- Nat.negb_odd.
    by destruct (ledOn (gl w)), (Nat.odd k).
Qed.

Lemma rendered_succ k w :
  rendered (S k) w = rendered k w ++ [ledOn (gl (ticks (S k) w))].
Proof. unfold rendered. by rewrite seq_S, map_app. Qed.

Lemma rendered_flash k w :
  mode (gl w) = FLASH →
  rendered k w = alternating k (negb (ledOn (gl w))).
Proof.
  intros Hm. induction k as [| k IH]; [done |].
  rewrite rendered_succ, alternating_snoc, IH, ticks_flash_ledOn by done.
  do 2 f_equal. rewrite Nat.odd_succ, <- Nat.negb_odd.
  by destruct (ledOn (gl w)), (Nat.odd k).
Qed.

Lemma gpio_writes_ticks k w :
  gpio_writes (ticks_calls k w) =
  flat_map (λ v, [(gpioLedGREEN (gl w), v); (gpioLedRED (gl w), v)]) (rendered k w).
Proof.
  induction k as [| k IH]; [done |].
  cbn [ticks_calls]. unfold gpio_writes in *.
  rewrite omap_app, IH, rendered_succ, flat_map_app.
  destruct (ticks_globals k w) as (_ & Hr & Hg & _).
  unfold tick_calls. cbn. by rewrite Hr, Hg.
Qed.

Lemma tick_levels_lookup w :
  pin_level (ke (tick w)) !! gpioLedRED (gl w) = Some (ledOn (gl (tick w))) ∧
  pin_level (ke (tick w)) !! gpioLedGREEN (gl w) = Some (ledOn (gl (tick w))).
Proof.
  rewrite tick_levels. split.
  - apply lookup_insert_eq.
  - destruct (decide (gpioLedRED (gl w) = gpioLedGREEN (gl w))) as [-> | Hne].
    + apply lookup_insert_eq.
    + rewrite lookup_insert_ne by done. apply lookup_insert_eq.
Qed.

(** The loop of [kThread_run], asked to stop after [k] passes, returns 0
    having made exactly those passes. *)
Lemma kThread_loop_ticks k w :
  kThread_loop (replicate k false ++ [true]) w = (Some 0, ticks k w).
Proof.
  revert w. induction k as [| k IH]; intros w; [done |].
  cbn [replicate app kThread_loop]. unfold bind at 1.
  destruct (kThread_body w) as [u w1] eqn:Hb.
  rewrite IH, ticks_succ. f_equal.
  unfold ticks. rewrite <- Nat.iter_swap. unfold tick at 3, exec. by rewrite Hb.
Qed.

(** [C2].  One pass of the Blink Task computes the LED boolean from the
    mode (inverted under [FLASH], true under [ON], false under [OFF]) and
    writes that boolean to the green and to the red LED output. *)
Theorem tick_renders_mode (w : world) :
  let v := next_led (mode (gl w)) (ledOn (gl w)) in
  ledOn (gl (tick w)) = v ∧
  new_calls w (tick w) =
    [ Kset_current_state TASK_RUNNING;
      Kgpio_set_value (gpioLedGREEN (gl w)) v;
      Kgpio_set_value (gpioLedRED (gl w)) v;
      Kset_current_state TASK_INTERRUPTIBLE;
      Kmsleep (blinkPeriod (gl w) ÷ 3) ] ∧
  pin_level (ke (tick w)) !! gpioLedRED (gl w) = Some v ∧
  pin_level (ke (tick w)) !! gpioLedGREEN (gl w) = Some v.
Proof.
  intros v. subst v. rewrite <- tick_ledOn. split; [done |]. split.
  - apply new_calls_app, tick_log.
  - apply tick_levels_lookup.
Qed.

Lemma run_snoc sched e w : run (sched ++ [e]) w = step e (run sched w).
Proof. unfold run. by rewrite fold_left_app. Qed.

(** [C10].  At the end of every pass of the Blink Task, whatever happened
    before it, the red and the green LED output hold the same level, the
    value of the one render flag [ledOn]. *)
Theorem leds_agree_after_tick (sched : list kevent) (w : world) :
  let w' := run (sched ++ [EvTick]) w in
  pin_level (ke w') !! gpioLedRED (gl w') = pin_level (ke w') !! gpioLedGREEN (gl w') ∧
  pin_level (ke w') !! gpioLedRED (gl w') = Some (ledOn (gl w')).
Proof.
  intros w'. subst w'. rewrite run_snoc. cbn [step].
  set (u := run sched w).
  destruct (tick_levels_lookup u) as (Hr & Hg).
  destruct (tick_globals u) as (_ & _ & -> & -> & _).
  rewrite Hr, Hg. done.
Qed.

(** [C8].  With the mode held at [FLASH], [k] passes of the Blink Task flip
    the LED boolean once per pass: after them it is the initial boolean
    xor the parity of [k], the values rendered and written to both outputs
    alternate, and the sequence has changed value exactly [k] times. *)
Theorem flash_ticks_flip (k : nat) (w : world) :
  mode (gl w) = FLASH →
  let l0 := ledOn (gl w) in
  kThread_loop (replicate k false ++ [true]) w = (Some 0, ticks k w) ∧
  ledOn (gl (ticks k w)) = xorb l0 (Nat.odd k) ∧
  rendered k w = alternating k (negb l0) ∧
  flips l0 (rendered k w) = k ∧
  gpio_writes (new_calls w (ticks k w)) =
    flat_map (λ v, [(gpioLedGREEN (gl w), v); (gpioLedRED (gl w), v)])
      (alternating k (negb l0)).
Proof.
  intros Hm l0. subst l0. split; [apply kThread_loop_ticks |]. repeat split.
  - by apply ticks_flash_ledOn.
  - by apply rendered_flash.
  - rewrite rendered_flash by done. apply flips_alternating.
  - rewrite (new_calls_app w (ticks k w) _ (ticks_log k w)).
    by rewrite gpio_writes_ticks, rendered_flash.
Qed.

(** Three passes from the initial state. *)
Lemma flash_ticks_flip_witness :
  mode (gl boot) = FLASH ∧
  kThread_loop [false; false; false; true] boot = (Some 0, ticks 3 boot) ∧
  ledOn (gl (ticks 3 boot)) = true ∧
  rendered 3 boot = [true; false; true] ∧
  flips false (rendered 3 boot) = 3%nat ∧
  gpio_writes (new_calls boot (ticks 3 boot)) =
    [(67, true); (66, true); (67, false); (66, false); (67, true); (66, true)].
Proof. split; [reflexivity | exact (flash_ticks_flip 3 boot eq_refl)]. Defined.

(** [C5].  Each pass sleeps [blinkPeriod / 3] milliseconds, the quotient
    truncated; a full flash cycle, the two passes after which the LED is
    back at its value, therefore sleeps twice that, which is less than
    [blinkPeriod]: 333 ms and 666 ms for the configured 1000 ms. *)
Theorem flash_cycle_sleeps (w : world) :
  mode (gl w) = FLASH →
  0 < blinkPeriod (gl w) →
  let p := blinkPeriod (gl w) in
  slept (new_calls w (tick w)) = p ÷ 3 ∧
  3 * (p ÷ 3) ≤ p < 3 * (p ÷ 3) + 3 ∧
  ledOn (gl (ticks 1 w)) = negb (ledOn (gl w)) ∧
  ledOn (gl (ticks 2 w)) = ledOn (gl w) ∧
  slept (new_calls w (ticks 2 w)) = 2 * (p ÷ 3) ∧
  2 * (p ÷ 3) < p ∧
  blinkPeriod initial_globals ÷ 3 = 333.
Proof.
  intros Hm Hp p. subst p.
  repeat split.
  - rewrite (new_calls_app w (tick w) _ (tick_log w)). unfold tick_calls, slept. cbn. lia.
  - Z.to_euclidean_division_equations. lia.
  - Z.to_euclidean_division_equations. lia.
  - rewrite (ticks_flash_ledOn 1 w Hm). by destruct (ledOn (gl w)).
  - rewrite (ticks_flash_ledOn 2 w Hm). by destruct (ledOn (gl w)).
  - rewrite (new_calls_app w (ticks 2 w) _ (ticks_log 2 w)), slept_ticks. lia.
  - Z.to_euclidean_division_equations. lia.
Qed.

(** The configured period of 1000 ms. *)
Lemma flash_cycle_sleeps_witness :
  mode (gl boot) = FLASH ∧
  0 < blinkPeriod (gl boot) ∧
  slept (new_calls boot (tick boot)) = 333 ∧
  slept (new_calls boot (ticks 2 boot)) = 666 ∧
  ledOn (gl (ticks 2 boot)) = ledOn (gl boot) ∧
  666 < blinkPeriod (gl boot).
Proof.
  split; [reflexivity |]. split; [reflexivity |].
  destruct (flash_cycle_sleeps boot eq_refl eq_refl) as (H1 & _ & _ & H2 & H3 & H4 & _).
  exact (conj H1 (conj H3 (conj H2 H4))).
Defined.

(** ** Reachable modes *)

Lemma step_mode e w :
  mode (gl (step e w)) =
  match e with
  | EvIrq => if modes_eqb (mode (gl w)) FLASH then ON else FLASH
  | EvTick => mode (gl w)
  end.
Proof.
  destruct e; cbn [step].
  - apply irq_step_mode.
  - apply tick_globals.
Qed.

Lemma run_mode_not_off sched w : mode (gl w) ≠ OFF → mode (gl (run sched w)) ≠ OFF.
Proof.
  revert w. induction sched as [| e sched IH]; intros w Hw; [done |].
  change (run (e :: sched) w) with (run sched (step e w)).
  apply IH. rewrite step_mode.
  destruct e; [by destruct (mode (gl w)) | done].
Qed.

(** [C4].  In every state reached from the initial one by deliveries of
    the interrupt, in any number and interleaved in any way with passes of
    the Blink Task, the mode is [ON] or [FLASH]; a further delivery
    exchanges the two. *)
Theorem off_is_unreachable (sched : list kevent) :
  let w := run sched boot in
  (mode (gl w) = ON ∨ mode (gl w) = FLASH) ∧
  mode (gl (irq_step w)) = match mode (gl w) with FLASH => ON | _ => FLASH end ∧
  mode (gl (irq_step w)) ≠ mode (gl w) ∧
  mode (gl (irq_step w)) ≠ OFF.
Proof.
  intros w. subst w.
  pose proof (run_mode_not_off sched boot) as Hw.
  rewrite irq_step_mode.
  destruct (mode (gl (run sched boot))); cbn; [| by eauto..].
  by destruct Hw.
Qed.

(** [C9].  From a mode other than [FLASH], [OFF] included, one call of the
    interrupt handler leaves the mode at [FLASH], adds one to the press
    counter in [unsigned int] arithmetic and returns [IRQ_HANDLED]. *)
Theorem handler_sends_off_to_flash (irq dev_id regs : Z) (w : world) :
  mode (gl w) ≠ FLASH →
  let after := exec (ebbgpio_irq_handler irq dev_id regs) w in
  mode (gl after) = FLASH ∧
  numberPresses (gl after) = to_uint (numberPresses (gl w) + 1) ∧
  eval (ebbgpio_irq_handler irq dev_id regs) w = IRQ_HANDLED.
Proof.
  intros Hm after. subst after.
  rewrite handler_mode, handler_presses, handler_returns.
  by destruct (mode (gl w)).
Qed.

(** The handler called once with the mode at [OFF]. *)
Lemma handler_sends_off_to_flash_witness :
  mode (gl boot_off) = OFF ∧
  mode (gl (exec (ebbgpio_irq_handler 165 NULL NULL) boot_off)) = FLASH ∧
  numberPresses (gl (exec (ebbgpio_irq_handler 165 NULL NULL) boot_off)) = 1 ∧
  eval (ebbgpio_irq_handler 165 NULL NULL) boot_off = IRQ_HANDLED.
Proof.
  split; [reflexivity |].
  apply (handler_sends_off_to_flash 165 NULL NULL boot_off). discriminate.
Defined.

(** ** Loading and unloading *)

(** The calls [ebbgpio_exit] makes, in order. *)
Lemma exit_calls (P : platform) (w : world) :
  new_calls w (exec (ebbgpio_exit P) w) =
  [ Kkthread_stop (task (gl w));
    Kgpio_get_value (gpioButton (gl w));
    Kprintk KERN_INFO "GPIO_TEST: The button state is currently: %d\n"
      [plat_gpio_get_value P (gpioButton (gl w))];
    Kprintk KERN_INFO presses_report_fmt [numberPresses (gl w)];
    Kgpio_set_value (gpioLedRED (gl w)) false;
    Kgpio_set_value (gpioLedGREEN (gl w)) false;
    Kgpio_unexport (gpioLedRED (gl w));
    Kgpio_unexport (gpioLedGREEN (gl w));
    Kfree_irq (irqNumber (gl w)) NULL;
    Kgpio_unexport (gpioButton (gl w));
    Kgpio_free (gpioLedRED (gl w));
    Kgpio_free (gpioLedGREEN (gl w));
    Kgpio_free (gpioButton (gl w));
    Kprintk KERN_INFO "GPIO_TEST: Goodbye from the LKM!\n" [] ].
Proof.
  destruct w as [[] []]. kstep. log_norm. apply drop_app_length.
Qed.

(** [C7], as amended.  [ebbgpio_exit] stops the Blink Task and waits for
    it, then reports the button state and the press counter, then drives
    both LED outputs low, unexports the two LED pins, frees the interrupt,
    unexports the button pin, frees the three pins and logs its farewell. *)
Theorem exit_order (P : platform) (w : world) :
  let calls := new_calls w (exec (ebbgpio_exit P) w) in
  calls =
    [ Kkthread_stop (task (gl w));
      Kgpio_get_value (gpioButton (gl w));
      Kprintk KERN_INFO "GPIO_TEST: The button state is currently: %d\n"
        [plat_gpio_get_value P (gpioButton (gl w))];
      Kprintk KERN_INFO "GPIO_TEST: The button was pressed %d times\n"
        [numberPresses (gl w)];
      Kgpio_set_value (gpioLedRED (gl w)) false;
      Kgpio_set_value (gpioLedGREEN (gl w)) false;
      Kgpio_unexport (gpioLedRED (gl w));
      Kgpio_unexport (gpioLedGREEN (gl w));
      Kfree_irq (irqNumber (gl w)) NULL;
      Kgpio_unexport (gpioButton (gl w));
      Kgpio_free (gpioLedRED (gl w));
      Kgpio_free (gpioLedGREEN (gl w));
      Kgpio_free (gpioButton (gl w));
      Kprintk KERN_INFO "GPIO_TEST: Goodbye from the LKM!\n" [] ] ∧
  shutdown_effect_of <$> calls =
    [ Some StopBlinkTask; None; None; Some ReportPresses;
      Some LedsOff; Some LedsOff;
      Some ReleasePins; Some ReleasePins;
      Some UnregisterInterrupt;
      Some ReleasePins; Some ReleasePins; Some ReleasePins; Some ReleasePins;
      None ].
Proof.
  intros calls. subst calls. rewrite exit_calls. split; reflexivity.
Qed.

(** [C7], as stated, fails on the module unloaded right after its load:
    the press counter is reported before the LEDs are switched off, and
    the interrupt is freed before the button pin is released. *)
Lemma exit_breaks_spec_order :
  spec_shutdown_order (new_calls loaded (exec (ebbgpio_exit board) loaded)) = false.
Proof. vm_compute. reflexivity. Qed.

(** [C3]: the module on a board whose green LED pin is invalid, the red
    LED pin and the button pin being valid.  [ebbgpio_init] passes its
    validity test, requests all three pins and returns 0 holding the two
    valid ones. *)
Theorem init_proceeds_with_one_invalid_led :
  let w' := exec (ebbgpio_init board_without_green) boot in
  gpio_is_valid board_without_green (gpioLedRED (gl boot)) = true ∧
  gpio_is_valid board_without_green (gpioLedGREEN (gl boot)) = false ∧
  gpio_is_valid board_without_green (gpioButton (gl boot)) = true ∧
  eval (ebbgpio_init board_without_green) boot = 0 ∧
  eval (ebbgpio_init board_without_green) boot ≠ - ENODEV ∧
  take 3 (klog (ke w')) =
    [ Kprintk KERN_INFO "GPIO_TEST: Initializing the GPIO_TEST LKM\n" [];
      Kgpio_request 66 "sysfs"; Kgpio_request 67 "sysfs" ] ∧
  requested (ke w') = {[66; 69]} ∧
  led_thread (ke w') = true.
Proof.
  intros w'. subst w'. repeat split; try (vm_compute; reflexivity).
  vm_compute. discriminate.
Qed.

(** [C6], as stated, fails on a board whose interrupt line is taken:
    [ebbgpio_init] comes back with the three pins still held. *)
Lemma irq_failure_keeps_pins : ¬ spec_irq_failure_released board_irq_busy boot.
Proof.
  intros (_ & Hreq & _).
  apply (f_equal elements) in Hreq. vm_compute in Hreq. discriminate.
Qed.

(** [C6], as amended.  When [request_irq] fails, [ebbgpio_init] goes on:
    it logs the result, starts the Blink Task and, the task being there,
    returns the error of [request_irq]; on the way it has released
    nothing, so the pins it could request are held, the three pins are
    exported and the thread runs. *)
Theorem init_irq_failure_releases_nothing (P : platform) (w : world) :
  negb (gpio_is_valid P (gpioLedRED (gl w))) &&
    negb (gpio_is_valid P (gpioLedGREEN (gl w))) = false →
  plat_request_irq P (to_uint (plat_gpio_to_irq P (gpioButton (gl w)))) ≠ 0 →
  IS_ERR (plat_kthread_run P) = false →
  let pins := [gpioLedRED (gl w); gpioLedGREEN (gl w); gpioButton (gl w)] in
  let w' := exec (ebbgpio_init P) w in
  eval (ebbgpio_init P) w =
    plat_request_irq P (to_uint (plat_gpio_to_irq P (gpioButton (gl w)))) ∧
  led_thread (ke w') = true ∧
  requested (ke w') =
    list_to_set (filter (λ gpio, plat_gpio_request P gpio = 0) pins) ∪ requested (ke w) ∧
  exported (ke w') = list_to_set pins ∪ exported (ke w) ∧
  irq_lines (ke w') = irq_lines (ke w) ∧
  Forall (λ c, is_release c = false) (new_calls w w').
Proof.
  intros Hvalid Hirq Hthread pins w'. subst pins w'.
  revert Hvalid Hirq. destruct w as [[] []]. kstep. intros Hvalid Hirq.
  rewrite Hvalid, Hthread. kstep.
  split; [done |]. split; [done |]. split; [| split; [| split]].
  - rewrite !filter_cons, filter_nil.
    destruct (Z.eqb_spec (plat_gpio_request P gpioLedRED0) 0);
      [rewrite decide_True by done | rewrite decide_False by done];
      (destruct (Z.eqb_spec (plat_gpio_request P gpioLedGREEN0) 0);
       [rewrite decide_True by done | rewrite decide_False by done]);
      (destruct (Z.eqb_spec (plat_gpio_request P gpioButton0) 0);
       [rewrite decide_True by done | rewrite decide_False by done]);
      cbn [list_to_set foldr]; apply set_eq; intros x;
      rewrite !elem_of_union, elem_of_empty; tauto.
  - cbn [list_to_set foldr]. apply set_eq; intros x.
    rewrite !elem_of_union, elem_of_empty. tauto.
  - apply Z.eqb_neq in Hirq. by rewrite Hirq.
  - log_norm. rewrite drop_app_length. repeat constructor.
Qed.

(** The board whose interrupt line is busy: [-EBUSY] comes back and the
    three pins are held and exported. *)
Lemma init_irq_failure_releases_nothing_witness :
  let w' := exec (ebbgpio_init board_irq_busy) boot in
  plat_request_irq board_irq_busy 165 = - EBUSY ∧
  eval (ebbgpio_init board_irq_busy) boot = - EBUSY ∧
  led_thread (ke w') = true ∧
  requested (ke w') = {[66; 67; 69]} ∧
  exported (ke w') = {[66; 67; 69]} ∧
  irq_lines (ke w') = ∅ ∧
  Forall (λ c, is_release c = false) (new_calls boot w').
Proof.
  intros w'. split; [reflexivity |].
  destruct (init_irq_failure_releases_nothing board_irq_busy boot)
    as (Hret & Hthread & Hreq & Hexp & Hirq & Hlog);
    [reflexivity | discriminate | reflexivity |].
  subst w'. rewrite Hreq, Hexp, Hirq.
  repeat split; try done; vm_compute; reflexivity.
Defined.

(** * Further properties *)

(** ** The interrupt handler and the press counter *)

Lemma irq_step_frame w :
  pin_level (ke (irq_step w)) = pin_level (ke w) ∧
  requested (ke (irq_step w)) = requested (ke w) ∧
  exported (ke (irq_step w)) = exported (ke w) ∧
  irq_lines (ke (irq_step w)) = irq_lines (ke w) ∧
  led_thread (ke (irq_step w)) = led_thread (ke w) ∧
  ledOn (gl (irq_step w)) = ledOn (gl w).
Proof. destruct w as [[] []]. kstep. by destruct mode0. Qed.

Lemma irq_step_config w :
  gpioLedRED (gl (irq_step w)) = gpioLedRED (gl w) ∧
  gpioLedGREEN (gl (irq_step w)) = gpioLedGREEN (gl w) ∧
  gpioButton (gl (irq_step w)) = gpioButton (gl w) ∧
  irqNumber (gl (irq_step w)) = irqNumber (gl w) ∧
  task (gl (irq_step w)) = task (gl w) ∧
  blinkPeriod (gl (irq_step w)) = blinkPeriod (gl w).
Proof. destruct w as [[] []]. kstep. by destruct mode0. Qed.

Lemma irq_step_log w :
  klog (ke (irq_step w)) =
  klog (ke w) ++ [Kprintk KERN_INFO "Button pressed count is %d\n" [numberPresses (gl w)]].
Proof. destruct w as [[] []]. kstep. by destruct mode0. Qed.

Lemma to_uint_range z : 0 ≤ to_uint z < UINT_MODULUS.
Proof. unfold to_uint. apply Z.mod_pos_bound. reflexivity. Qed.

Lemma to_uint_small z : 0 ≤ z < UINT_MODULUS → to_uint z = z.
Proof. intros H. unfold to_uint. by apply Z.mod_small. Qed.

Lemma to_uint_add_l a b : to_uint (to_uint a + b) = to_uint (a + b).
Proof. unfold to_uint. apply Z.add_mod_idemp_l. discriminate. Qed.

Lemma toggled_twice m : m ≠ OFF → toggled (toggled m) = m.
Proof. by destruct m. Qed.

Lemma toggled_not_off m : toggled m ≠ OFF.
Proof. by destruct m. Qed.

(** [X1].  A call of the interrupt handler touches no GPIO: its one kernel
    call is a [printk] of the count before the increment; the pin levels,
    the render flag and every resource of the module are as before. *)
Theorem handler_leaves_leds_alone (irq dev_id regs : Z) (w : world) :
  let after := exec (ebbgpio_irq_handler irq dev_id regs) w in
  new_calls w after =
    [Kprintk KERN_INFO "Button pressed count is %d\n" [numberPresses (gl w)]] ∧
  gpio_writes (new_calls w after) = [] ∧
  pin_level (ke after) = pin_level (ke w) ∧
  ledOn (gl after) = ledOn (gl w) ∧
  requested (ke after) = requested (ke w) ∧
  exported (ke after) = exported (ke w) ∧
  irq_lines (ke after) = irq_lines (ke w) ∧
  led_thread (ke after) = led_thread (ke w).
Proof.
  intros after. subst after.
  assert (Hlog : new_calls w (exec (ebbgpio_irq_handler irq dev_id regs) w) =
    [Kprintk KERN_INFO "Button pressed count is %d\n" [numberPresses (gl w)]])
    by apply new_calls_app, handler_calls.
  rewrite Hlog. split; [done |]. split; [done |].
  destruct w as [[] []]. kstep. by destruct mode0.
Qed.

Lemma irq_burst_presses (n : N) (w : world) :
  0 ≤ numberPresses (gl w) < UINT_MODULUS →
  numberPresses (gl (irq_burst n w)) = to_uint (numberPresses (gl w) + Z.of_N n).
Proof.
  intros Hc. induction n as [| n IH] using N.peano_ind.
  - cbn. rewrite Z.add_0_r. symmetry. by apply to_uint_small.
  - rewrite irq_burst_succ, irq_step_presses, IH, to_uint_add_l, N2Z.inj_succ.
    f_equal. lia.
Qed.

(** [X2].  As long as the sum stays below 2^32 the press counter counts
    exactly: [n] deliveries of the interrupt add [n] to it. *)
Theorem presses_exact_below_wrap (n : N) (w : world) :
  0 ≤ numberPresses (gl w) →
  numberPresses (gl w) + Z.of_N n < UINT_MODULUS →
  numberPresses (gl (irq_burst n w)) = numberPresses (gl w) + Z.of_N n.
Proof.
  intros H0 Hn. rewrite irq_burst_presses by lia. apply to_uint_small. lia.
Qed.

(** Five presses after the module's variables were initialised. *)
Lemma presses_exact_below_wrap_witness :
  0 ≤ numberPresses (gl boot) ∧
  numberPresses (gl boot) + 5 < UINT_MODULUS ∧
  numberPresses (gl (irq_burst 5 boot)) = 5.
Proof.
  assert (H0 : 0 ≤ numberPresses (gl boot)) by (vm_compute; discriminate).
  assert (H5 : numberPresses (gl boot) + Z.of_N 5 < UINT_MODULUS) by (vm_compute; reflexivity).
  exact (conj H0 (conj H5 (presses_exact_below_wrap 5 boot H0 H5))).
Defined.

(** [X3].  At the largest [unsigned int] the next press takes the counter
    back to 0, and the mode is switched all the same. *)
Theorem presses_wrap_to_zero (w : world) :
  numberPresses (gl w) = UINT_MODULUS - 1 →
  numberPresses (gl (irq_step w)) = 0 ∧
  mode (gl (irq_step w)) = toggled (mode (gl w)).
Proof.
  intros Hc. rewrite irq_step_presses, irq_step_mode, Hc. done.
Qed.

Lemma presses_wrap_to_zero_witness :
  numberPresses (gl boot_last_press) = 4294967295 ∧
  numberPresses (gl (irq_step boot_last_press)) = 0 ∧
  mode (gl (irq_step boot_last_press)) = ON.
Proof.
  split; [reflexivity |]. apply (presses_wrap_to_zero boot_last_press). reflexivity.
Defined.

(** ** Schedules of interrupts and thread passes *)

Lemma run_cons e sched w : run (e :: sched) w = run sched (step e w).
Proof. reflexivity. Qed.

Lemma step_presses e w :
  numberPresses (gl (step e w)) =
  match e with
  | EvIrq => to_uint (numberPresses (gl w) + 1)
  | EvTick => numberPresses (gl w)
  end.
Proof.
  destruct e; cbn [step].
  - apply irq_step_presses.
  - apply tick_globals.
Qed.

Lemma run_presses (sched : list kevent) (w : world) :
  0 ≤ numberPresses (gl w) < UINT_MODULUS →
  numberPresses (gl (run sched w)) =
    to_uint (numberPresses (gl w) + Z.of_nat (irq_count sched)).
Proof.
  revert w. induction sched as [| e sched IH]; intros w Hc.
  - cbn. rewrite Z.add_0_r. symmetry. by apply to_uint_small.
  - rewrite run_cons, IH, step_presses.
    + destruct e; cbn [irq_count]; [| done].
      rewrite to_uint_add_l. f_equal. lia.
    + rewrite step_presses. destruct e; [apply to_uint_range | done].
Qed.

Lemma run_mode (sched : list kevent) (w : world) :
  mode (gl w) ≠ OFF →
  mode (gl (run sched w)) =
    (if Nat.even (irq_count sched) then mode (gl w) else toggled (mode (gl w))).
Proof.
  revert w. induction sched as [| e sched IH]; intros w Hm; [done |].
  rewrite run_cons, IH, step_mode.
  - destruct e; cbn [irq_count]; [| done].
    fold (toggled (mode (gl w))). rewrite Nat.even_succ, <- Nat.negb_even.
    destruct (Nat.even (irq_count sched)); cbn [negb]; [done |].
    by apply toggled_twice.
  - rewrite step_mode. destruct e; [apply toggled_not_off | done].
Qed.

(** [X4].  However the passes of the LED thread fall between them, the
    mode after a schedule depends on the parity of the interrupts
    delivered, and the press counter on their number; the passes change
    neither. *)
Theorem run_mode_and_presses (sched : list kevent) (w : world) :
  mode (gl w) ≠ OFF →
  0 ≤ numberPresses (gl w) < UINT_MODULUS →
  mode (gl (run sched w)) =
    (if Nat.even (irq_count sched) then mode (gl w) else toggled (mode (gl w))) ∧
  numberPresses (gl (run sched w)) =
    to_uint (numberPresses (gl w) + Z.of_nat (irq_count sched)) ∧
  0 ≤ numberPresses (gl (run sched w)) < UINT_MODULUS.
Proof.
  intros Hm Hc. split; [by apply run_mode |].
  rewrite run_presses by done. split; [done | apply to_uint_range].
Qed.

(** Press, pass, press, pass, press from the initial state. *)
Lemma run_mode_and_presses_witness :
  mode (gl boot) ≠ OFF ∧
  0 ≤ numberPresses (gl boot) < UINT_MODULUS ∧
  mode (gl (run [EvIrq; EvTick; EvIrq; EvTick; EvIrq] boot)) = ON ∧
  numberPresses (gl (run [EvIrq; EvTick; EvIrq; EvTick; EvIrq] boot)) = 3.
Proof.
  assert (Hm : mode (gl boot) ≠ OFF) by discriminate.
  assert (Hc : 0 ≤ numberPresses (gl boot) < UINT_MODULUS)
    by (split; [discriminate | reflexivity]).
  destruct (run_mode_and_presses [EvIrq; EvTick; EvIrq; EvTick; EvIrq] boot Hm Hc)
    as (H1 & H2 & _).
  exact (conj Hm (conj Hc (conj H1 H2))).
Defined.

Lemma step_config e w :
  gpioLedRED (gl (step e w)) = gpioLedRED (gl w) ∧
  gpioLedGREEN (gl (step e w)) = gpioLedGREEN (gl w) ∧
  gpioButton (gl (step e w)) = gpioButton (gl w) ∧
  irqNumber (gl (step e w)) = irqNumber (gl w) ∧
  task (gl (step e w)) = task (gl w) ∧
  blinkPeriod (gl (step e w)) = blinkPeriod (gl w).
Proof.
  destruct e; cbn [step]; [apply irq_step_config |].
  destruct w as [[] []]. kstep. by destruct mode0.
Qed.

Lemma step_resources e w :
  requested (ke (step e w)) = requested (ke w) ∧
  exported (ke (step e w)) = exported (ke w) ∧
  irq_lines (ke (step e w)) = irq_lines (ke w) ∧
  led_thread (ke (step e w)) = led_thread (ke w).
Proof.
  destruct e; cbn [step].
  - destruct (irq_step_frame w) as (_ & -> & -> & -> & -> & _). done.
  - destruct w as [[] []]. kstep. by destruct mode0.
Qed.

Lemma run_config sched w :
  gpioLedRED (gl (run sched w)) = gpioLedRED (gl w) ∧
  gpioLedGREEN (gl (run sched w)) = gpioLedGREEN (gl w) ∧
  gpioButton (gl (run sched w)) = gpioButton (gl w) ∧
  irqNumber (gl (run sched w)) = irqNumber (gl w) ∧
  task (gl (run sched w)) = task (gl w) ∧
  blinkPeriod (gl (run sched w)) = blinkPeriod (gl w).
Proof.
  revert w. induction sched as [| e sched IH]; intros w; [done |].
  rewrite run_cons.
  destruct (IH (step e w)) as (-> & -> & -> & -> & -> & ->).
  apply step_config.
Qed.

Lemma run_resources sched w :
  requested (ke (run sched w)) = requested (ke w) ∧
  exported (ke (run sched w)) = exported (ke w) ∧
  irq_lines (ke (run sched w)) = irq_lines (ke w) ∧
  led_thread (ke (run sched w)) = led_thread (ke w).
Proof.
  revert w. induction sched as [| e sched IH]; intros w; [done |].
  rewrite run_cons.
  destruct (IH (step e w)) as (-> & -> & -> & ->).
  apply step_resources.
Qed.

Lemma step_log e w :
  klog (ke (step e w)) =
  klog (ke w) ++
  match e with
  | EvIrq => [Kprintk KERN_INFO "Button pressed count is %d\n" [numberPresses (gl w)]]
  | EvTick => tick_calls w
  end.
Proof. destruct e; cbn [step]; [apply irq_step_log | apply tick_log]. Qed.

Lemma run_log sched w :
  ∃ calls,
    klog (ke (run sched w)) = klog (ke w) ++ calls ∧
    slept calls = Z.of_nat (tick_count sched) * (blinkPeriod (gl w) ÷ 3) ∧
    length (gpio_writes calls) = (2 * tick_count sched)%nat ∧
    Forall (λ gv, gv.1 = gpioLedRED (gl w) ∨ gv.1 = gpioLedGREEN (gl w))
      (gpio_writes calls) ∧
    Forall (λ c, is_release c = false) calls.
Proof.
  revert w. induction sched as [| e sched IH]; intros w.
  - exists []. rewrite app_nil_r. by repeat split.
  - rewrite run_cons.
    destruct (IH (step e w)) as (calls & Hlog & Hsleep & Hlen & Hpins & Hrel).
    destruct (step_config e w) as (Hr & Hg & _ & _ & _ & Hp).
    rewrite Hr, Hg in Hpins. rewrite Hp in Hsleep.
    rewrite Hlog, step_log, <- app_assoc. eexists. split; [reflexivity |].
    unfold gpio_writes in *. rewrite slept_app, omap_app, length_app, Forall_app, Forall_app.
    unfold tick_calls.
    split; [| split; [| split; [split; [| done] | split; [| done]]]].
    + rewrite Hsleep. destruct e; cbn; lia.
    + rewrite Hlen. destruct e; cbn; lia.
    + destruct e; cbn; [constructor |].
      apply Forall_cons; split; [by right |].
      apply Forall_cons; split; [by left | constructor].
    + destruct e; repeat constructor.
Qed.

(** [X5].  Over any schedule the module sleeps one third of [blinkPeriod]
    per pass of the thread and nothing per interrupt, writes two output
    levels per pass, writes to no pin but its two LED pins, and gives no
    resource back. *)
Theorem run_sleeps_and_writes (sched : list kevent) (w : world) :
  let calls := new_calls w (run sched w) in
  slept calls = Z.of_nat (tick_count sched) * (blinkPeriod (gl w) ÷ 3) ∧
  length (gpio_writes calls) = (2 * tick_count sched)%nat ∧
  Forall (λ gv, gv.1 = gpioLedRED (gl w) ∨ gv.1 = gpioLedGREEN (gl w))
    (gpio_writes calls) ∧
  Forall (λ c, is_release c = false) calls ∧
  requested (ke (run sched w)) = requested (ke w) ∧
  exported (ke (run sched w)) = exported (ke w) ∧
  irq_lines (ke (run sched w)) = irq_lines (ke w).
Proof.
  intros calls. subst calls.
  destruct (run_log sched w) as (calls & Hlog & Hsleep & Hlen & Hpins & Hrel).
  rewrite (new_calls_app _ _ _ Hlog).
  destruct (run_resources sched w) as (Hq & He & Hi & _).
  by repeat split.
Qed.

Lemma step_other_pins e w gpio :
  gpio ≠ gpioLedRED (gl w) → gpio ≠ gpioLedGREEN (gl w) →
  pin_level (ke (step e w)) !! gpio = pin_level (ke w) !! gpio.
Proof.
  intros Hr Hg. destruct e; cbn [step].
  - by destruct (irq_step_frame w) as (-> & _).
  - rewrite tick_levels, !lookup_insert_ne by done. done.
Qed.

(** [X6].  No schedule of interrupts and thread passes changes the level
    of a pin other than the two LED pins. *)
Theorem run_leaves_other_pins (sched : list kevent) (w : world) (gpio : Z) :
  gpio ≠ gpioLedRED (gl w) →
  gpio ≠ gpioLedGREEN (gl w) →
  pin_level (ke (run sched w)) !! gpio = pin_level (ke w) !! gpio.
Proof.
  revert w. induction sched as [| e sched IH]; intros w Hr Hg; [done |].
  rewrite run_cons, IH.
  - by apply step_other_pins.
  - by destruct (step_config e w) as (-> & _).
  - by destruct (step_config e w) as (_ & -> & _).
Qed.

(** The button pin across a pass and a press on a loaded module. *)
Lemma run_leaves_other_pins_witness :
  69 ≠ gpioLedRED (gl loaded) ∧
  69 ≠ gpioLedGREEN (gl loaded) ∧
  pin_level (ke (run [EvTick; EvIrq] loaded)) !! 69 = pin_level (ke loaded) !! 69.
Proof.
  assert (Hr : 69 ≠ gpioLedRED (gl loaded)) by (vm_compute; discriminate).
  assert (Hg : 69 ≠ gpioLedGREEN (gl loaded)) by (vm_compute; discriminate).
  exact (conj Hr (conj Hg (run_leaves_other_pins [EvTick; EvIrq] loaded 69 Hr Hg))).
Defined.

(** ** The LED thread in the steady modes *)

Lemma ticks_steady_ledOn k w :
  mode (gl w) ≠ FLASH →
  ledOn (gl (ticks (S k) w)) = modes_eqb (mode (gl w)) ON.
Proof.
  intros Hm. rewrite ticks_succ, tick_ledOn.
  destruct (ticks_globals k w) as (-> & _).
  by destruct (mode (gl w)).
Qed.

Lemma rendered_steady k w :
  mode (gl w) ≠ FLASH →
  rendered k w = replicate k (modes_eqb (mode (gl w)) ON).
Proof.
  intros Hm. induction k as [| k IH]; [done |].
  by rewrite rendered_succ, replicate_S_end, IH, ticks_steady_ledOn.
Qed.

Lemma flips_replicate p k v :
  flips p (replicate k v) =
  match k with
  | O => O
  | S _ => if eqb p v then O else 1%nat
  end.
Proof.
  revert p. induction k as [| k IH]; intros p; [done |].
  cbn [replicate flips]. rewrite IH.
  destruct k; [lia |]. destruct v, p; cbn; lia.
Qed.

(** [X7].  With the mode held at [ON] or at [OFF], every pass renders the
    same boolean, true for [ON] and false for [OFF]: the values written to
    the two outputs are constant and the LED changes at most once, on the
    first pass. *)
Theorem steady_mode_ticks (k : nat) (w : world) :
  mode (gl w) ≠ FLASH →
  let v := modes_eqb (mode (gl w)) ON in
  rendered k w = replicate k v ∧
  gpio_writes (new_calls w (ticks k w)) =
    flat_map (λ b, [(gpioLedGREEN (gl w), b); (gpioLedRED (gl w), b)]) (replicate k v) ∧
  (flips (ledOn (gl w)) (rendered k w) ≤ 1)%nat ∧
  flips v (rendered k w) = O.
Proof.
  intros Hm v. subst v.
  rewrite (new_calls_app w (ticks k w) _ (ticks_log k w)), gpio_writes_ticks.
  rewrite rendered_steady by done. split; [done |]. split; [done |].
  rewrite !flips_replicate. destruct k; [lia |].
  rewrite eqb_reflx. split; [| done].
  destruct (eqb _ _); lia.
Qed.

(** Three passes after one press of the button, the mode being [ON]. *)
Lemma steady_mode_ticks_witness :
  mode (gl (irq_step boot)) ≠ FLASH ∧
  rendered 3 (irq_step boot) = [true; true; true] ∧
  gpio_writes (new_calls (irq_step boot) (ticks 3 (irq_step boot))) =
    [(67, true); (66, true); (67, true); (66, true); (67, true); (66, true)] ∧
  (flips (ledOn (gl (irq_step boot))) (rendered 3 (irq_step boot)) ≤ 1)%nat ∧
  flips true (rendered 3 (irq_step boot)) = O.
Proof.
  assert (Hm : mode (gl (irq_step boot)) ≠ FLASH) by (vm_compute; discriminate).
  exact (conj Hm (steady_mode_ticks 3 (irq_step boot) Hm)).
Defined.

(** ** The loop of the LED thread *)

Lemma ticks_swap k w : ticks k (tick w) = tick (ticks k w).
Proof. unfold ticks. apply Nat.iter_swap. Qed.

Lemma kThread_loop_passes should_stop w :
  kThread_loop should_stop w =
  (if existsb id should_stop then Some 0 else None,
   ticks (leading_false should_stop) w).
Proof.
  revert w. induction should_stop as [| b rest IH]; intros w; [done |].
  destruct b; [done |].
  cbn [kThread_loop existsb id orb leading_false]. unfold bind at 1.
  destruct (kThread_body w) as [u w1] eqn:Hb.
  rewrite IH, ticks_succ, <- ticks_swap. do 2 f_equal.
  unfold tick, exec. by rewrite Hb.
Qed.

Lemma length_gpio_writes_ticks k w :
  length (gpio_writes (ticks_calls k w)) = (2 * k)%nat.
Proof.
  induction k as [| k IH]; [done |].
  cbn [ticks_calls]. unfold gpio_writes in *.
  rewrite omap_app, length_app, IH. unfold tick_calls. cbn. lia.
Qed.

(** [X8].  [kThread_run] logs its start once, then makes one pass per
    negative answer of [kthread_should_stop] up to the first positive one
    and none after it; it returns 0 when it saw a positive answer.  A
    thread told to stop before its first pass writes no output. *)
Theorem kThread_run_passes (arg : Z) (should_stop : list bool) (w : world) :
  let started :=
    exec (printk KERN_INFO "EBB LED: Thread has started running \n" []) w in
  let k := leading_false should_stop in
  eval (kThread_run arg should_stop) w =
    (if existsb id should_stop then Some 0 else None) ∧
  exec (kThread_run arg should_stop) w = ticks k started ∧
  new_calls w (exec (kThread_run arg should_stop) w) =
    Kprintk KERN_INFO "EBB LED: Thread has started running \n" []
      :: ticks_calls k started ∧
  length (gpio_writes (new_calls w (exec (kThread_run arg should_stop) w))) =
    (2 * k)%nat.
Proof.
  intros started k. subst started k.
  set (started := exec (printk KERN_INFO "EBB LED: Thread has started running \n" []) w).
  assert (Hrun : kThread_run arg should_stop w =
    (if existsb id should_stop then Some 0 else None,
     ticks (leading_false should_stop) started)).
  { unfold kThread_run, bind. rewrite <- kThread_loop_passes.
    subst started. unfold exec.
    by destruct (printk KERN_INFO "EBB LED: Thread has started running \n" [] w). }
  assert (Hev : eval (kThread_run arg should_stop) w =
    (if existsb id should_stop then Some 0 else None))
    by (unfold eval; by rewrite Hrun).
  assert (Hex : exec (kThread_run arg should_stop) w =
    ticks (leading_false should_stop) started)
    by (unfold exec at 1; by rewrite Hrun).
  rewrite Hev, Hex.
  assert (Hlog : klog (ke (ticks (leading_false should_stop) started)) =
    klog (ke w) ++ Kprintk KERN_INFO "EBB LED: Thread has started running \n" []
      :: ticks_calls (leading_false should_stop) started).
  { rewrite ticks_log. subst started. destruct w as [[] []]. kstep. by log_norm. }
  rewrite (new_calls_app _ _ _ Hlog).
  repeat split.
  change (gpio_writes (?c :: ?l)) with (gpio_writes l).
  apply length_gpio_writes_ticks.
Qed.

(** ** The LEDs between passes *)

(** [X9].  Once the thread has made a pass, the two LED outputs hold the
    same level, that of the render flag, and interrupts delivered after the
    pass do not undo it. *)
Theorem leds_agree_once_rendered (sched : list kevent) (w : world) :
  EvTick ∈ sched →
  let w' := run sched w in
  pin_level (ke w') !! gpioLedRED (gl w') = Some (ledOn (gl w')) ∧
  pin_level (ke w') !! gpioLedGREEN (gl w') = Some (ledOn (gl w')).
Proof.
  intros Hin w'. subst w'.
  induction sched as [| e sched IH] using rev_ind.
  - by apply elem_of_nil in Hin.
  - rewrite run_snoc. set (u := run sched w) in *. destruct e; cbn [step].
    + apply elem_of_app in Hin as [Hin | Hin];
        [| apply elem_of_cons in Hin as [Hin | Hin];
           [discriminate | by apply elem_of_nil in Hin]].
      destruct (irq_step_frame u) as (-> & _ & _ & _ & _ & ->).
      destruct (irq_step_config u) as (-> & -> & _).
      by apply IH.
    + destruct (tick_globals u) as (_ & _ & -> & -> & _).
      apply tick_levels_lookup.
Qed.

(** A pass followed by a press, from the initial state. *)
Lemma leds_agree_once_rendered_witness :
  EvTick ∈ [EvTick; EvIrq] ∧
  let w' := run [EvTick; EvIrq] boot in
  pin_level (ke w') !! gpioLedRED (gl w') = Some (ledOn (gl w')) ∧
  pin_level (ke w') !! gpioLedGREEN (gl w') = Some (ledOn (gl w')).
Proof.
  assert (Hin : EvTick ∈ [EvTick; EvIrq]) by (apply elem_of_cons; by left).
  exact (conj Hin (leds_agree_once_rendered [EvTick; EvIrq] boot Hin)).
Defined.

(** ** Loading *)

(** What [ebbgpio_init] leaves behind and returns once its validity test
    has passed. *)
Lemma init_passed (P : platform) (w : world) :
  negb (gpio_is_valid P (gpioLedRED (gl w))) &&
    negb (gpio_is_valid P (gpioLedGREEN (gl w))) = false →
  let ptr := plat_kthread_run P in
  let rc := plat_request_irq P (button_irq P w) in
  let w' := exec (ebbgpio_init P) w in
  eval (ebbgpio_init P) w = (if IS_ERR ptr then PTR_ERR ptr else rc) ∧
  gl w' = set_task ptr (set_irqNumber (button_irq P w) (gl w)) ∧
  pin_level (ke w') =
    <[gpioLedGREEN (gl w) := currentStateLedGREEN (gl w)]>
      (<[gpioLedRED (gl w) := currentStateLedRED (gl w)]> (pin_level (ke w))) ∧
  requested (ke w') =
    granted P (gpioButton (gl w))
      (granted P (gpioLedGREEN (gl w))
         (granted P (gpioLedRED (gl w)) (requested (ke w)))) ∧
  exported (ke w') =
    {[gpioButton (gl w)]} ∪ ({[gpioLedGREEN (gl w)]} ∪
      ({[gpioLedRED (gl w)]} ∪ exported (ke w))) ∧
  irq_lines (ke w') =
    (if rc =? 0 then {[button_irq P w]} ∪ irq_lines (ke w) else irq_lines (ke w)) ∧
  led_thread (ke w') = (if IS_ERR ptr then led_thread (ke w) else true) ∧
  klog (ke w') =
    klog (ke w) ++
    Kprintk KERN_INFO "GPIO_TEST: Initializing the GPIO_TEST LKM\n" []
      :: init_calls P w ++
    (if IS_ERR ptr
     then [Kprintk KERN_ALERT "EBB LED: failed to create the task\n" []]
     else []).
Proof.
  intros Hvalid ptr rc w'. subst ptr rc w'.
  revert Hvalid. unfold init_calls, button_irq, granted.
  destruct w as [[] []]. kstep. intros Hvalid. rewrite Hvalid.
  destruct (IS_ERR (plat_kthread_run P)); kstep;
    (repeat split; try done; try (by log_norm));
    by destruct (plat_gpio_request P gpioLedRED0 =? 0),
      (plat_gpio_request P gpioLedGREEN0 =? 0),
      (plat_gpio_request P gpioButton0 =? 0).
Qed.

Lemma init_rejected (P : platform) (w : world) :
  negb (gpio_is_valid P (gpioLedRED (gl w))) &&
    negb (gpio_is_valid P (gpioLedGREEN (gl w))) = true →
  ebbgpio_init P w =
  (- ENODEV,
   {| gl := gl w;
      ke := log_call (Kprintk KERN_INFO "GPIO_TEST: invalid LED:RED/GREEN GPIO\n" [])
              (log_call (Kprintk KERN_INFO "GPIO_TEST: Initializing the GPIO_TEST LKM\n" [])
                 (ke w)) |}).
Proof.
  revert w. intros [[] []]. kstep. intros Hvalid. by rewrite Hvalid.
Qed.

Lemma IS_ERR_negative ptr : IS_ERR ptr = true → - MAX_ERRNO ≤ ptr < 0.
Proof. unfold IS_ERR. intros [H1 H2]%andb_true_iff. lia. Qed.

(** [X10].  With both LED pins invalid [ebbgpio_init] returns [-ENODEV]
    having logged two messages and nothing else: no pin is requested,
    configured or exported, no interrupt is asked for, no thread is
    started and no variable of the module is written. *)
Theorem init_without_led_acquires_nothing (P : platform) (w : world) :
  gpio_is_valid P (gpioLedRED (gl w)) = false →
  gpio_is_valid P (gpioLedGREEN (gl w)) = false →
  let w' := exec (ebbgpio_init P) w in
  eval (ebbgpio_init P) w = - ENODEV ∧
  new_calls w w' =
    [ Kprintk KERN_INFO "GPIO_TEST: Initializing the GPIO_TEST LKM\n" [];
      Kprintk KERN_INFO "GPIO_TEST: invalid LED:RED/GREEN GPIO\n" [] ] ∧
  gl w' = gl w ∧
  pin_level (ke w') = pin_level (ke w) ∧
  requested (ke w') = requested (ke w) ∧
  exported (ke w') = exported (ke w) ∧
  irq_lines (ke w') = irq_lines (ke w) ∧
  led_thread (ke w') = led_thread (ke w).
Proof.
  intros Hr Hg w'. subst w'. unfold eval, exec.
  rewrite init_rejected by (by rewrite Hr, Hg).
  cbn [fst snd gl ke]. repeat split.
  apply new_calls_app. cbn. by rewrite <- app_assoc.
Qed.

Lemma init_without_led_acquires_nothing_witness :
  gpio_is_valid board_no_gpio (gpioLedRED (gl boot)) = false ∧
  gpio_is_valid board_no_gpio (gpioLedGREEN (gl boot)) = false ∧
  eval (ebbgpio_init board_no_gpio) boot = - ENODEV ∧
  requested (ke (exec (ebbgpio_init board_no_gpio) boot)) = requested (ke boot).
Proof.
  destruct (init_without_led_acquires_nothing board_no_gpio boot eq_refl eq_refl)
    as (H1 & _ & _ & _ & H2 & _).
  exact (conj eq_refl (conj eq_refl (conj H1 H2))).
Defined.

(** [X11].  [ebbgpio_init] returns 0 exactly when at least one LED pin is
    valid, the interrupt could be registered and the thread was created;
    the validity of the button pin and the results of [gpio_request] have
    no part in it. *)
Theorem init_returns_zero_iff (P : platform) (w : world) :
  eval (ebbgpio_init P) w = 0 ↔
  negb (gpio_is_valid P (gpioLedRED (gl w))) &&
    negb (gpio_is_valid P (gpioLedGREEN (gl w))) = false ∧
  IS_ERR (plat_kthread_run P) = false ∧
  plat_request_irq P (button_irq P w) = 0.
Proof.
  destruct (negb (gpio_is_valid P (gpioLedRED (gl w))) &&
            negb (gpio_is_valid P (gpioLedGREEN (gl w)))) eqn:Hvalid.
  - unfold eval. rewrite init_rejected by done. cbn [fst].
    split; [discriminate | by intros [? _]].
  - destruct (init_passed P w Hvalid) as (-> & _).
    destruct (IS_ERR (plat_kthread_run P)) eqn:Herr.
    + apply IS_ERR_negative in Herr. unfold PTR_ERR.
      split; [lia | by intros (_ & ? & _)].
    + split; [done | by intros (_ & _ & ?)].
Qed.

(** [X12].  On a board where all three requests, the interrupt
    registration and the thread creation succeed, [ebbgpio_init] returns
    0 holding and exporting its three pins, with the interrupt line
    registered and the thread running; the red LED is driven to its
    initial state and the green LED to its own, the mode and the press
    counter are untouched. *)
Theorem init_success (P : platform) (w : world) :
  negb (gpio_is_valid P (gpioLedRED (gl w))) &&
    negb (gpio_is_valid P (gpioLedGREEN (gl w))) = false →
  plat_gpio_request P (gpioLedRED (gl w)) = 0 →
  plat_gpio_request P (gpioLedGREEN (gl w)) = 0 →
  plat_gpio_request P (gpioButton (gl w)) = 0 →
  plat_request_irq P (button_irq P w) = 0 →
  IS_ERR (plat_kthread_run P) = false →
  gpioLedRED (gl w) ≠ gpioLedGREEN (gl w) →
  let w' := exec (ebbgpio_init P) w in
  eval (ebbgpio_init P) w = 0 ∧
  requested (ke w') = module_pins w ∪ requested (ke w) ∧
  exported (ke w') = module_pins w ∪ exported (ke w) ∧
  irq_lines (ke w') = {[button_irq P w]} ∪ irq_lines (ke w) ∧
  led_thread (ke w') = true ∧
  pin_level (ke w') !! gpioLedRED (gl w) = Some (currentStateLedRED (gl w)) ∧
  pin_level (ke w') !! gpioLedGREEN (gl w) = Some (currentStateLedGREEN (gl w)) ∧
  irqNumber (gl w') = button_irq P w ∧
  task (gl w') = plat_kthread_run P ∧
  mode (gl w') = mode (gl w) ∧
  numberPresses (gl w') = numberPresses (gl w).
Proof.
  intros Hvalid Hr Hg Hb Hirq Herr Hne w'. subst w'.
  destruct (init_passed P w Hvalid)
    as (-> & -> & -> & -> & -> & -> & -> & _).
  unfold granted, module_pins. rewrite Hr, Hg, Hb, Hirq, Herr. cbn [Z.eqb].
  repeat split.
  - apply set_eq. intros x. rewrite !elem_of_union. tauto.
  - apply set_eq. intros x. rewrite !elem_of_union. tauto.
  - rewrite lookup_insert_ne by done. apply lookup_insert_eq.
  - apply lookup_insert_eq.
Qed.

(** The module loaded on [board]: red LED lit, green LED dark. *)
Lemma init_success_witness :
  let w' := exec (ebbgpio_init board) boot in
  gpioLedRED (gl boot) ≠ gpioLedGREEN (gl boot) ∧
  eval (ebbgpio_init board) boot = 0 ∧
  led_thread (ke w') = true ∧
  pin_level (ke w') !! gpioLedRED (gl boot) = Some (currentStateLedRED (gl boot)) ∧
  pin_level (ke w') !! gpioLedGREEN (gl boot) = Some (currentStateLedGREEN (gl boot)) ∧
  currentStateLedRED (gl boot) = true ∧
  currentStateLedGREEN (gl boot) = false.
Proof.
  intros w'.
  assert (Hne : gpioLedRED (gl boot) ≠ gpioLedGREEN (gl boot)) by discriminate.
  destruct (init_success board boot eq_refl eq_refl eq_refl eq_refl eq_refl eq_refl Hne)
    as (H1 & _ & _ & _ & H2 & H3 & H4 & _).
  exact (conj Hne (conj H1 (conj H2 (conj H3 (conj H4 (conj eq_refl eq_refl)))))).
Defined.

(** [X13].  When the interrupt was registered and [kthread_run] then
    fails, [ebbgpio_init] returns the error of [kthread_run], a negative
    number, and leaves the interrupt registered and the three pins
    exported: it has made no releasing call, and [task] holds the error
    pointer. *)
Theorem init_thread_failure_leaves_irq (P : platform) (w : world) :
  negb (gpio_is_valid P (gpioLedRED (gl w))) &&
    negb (gpio_is_valid P (gpioLedGREEN (gl w))) = false →
  plat_request_irq P (button_irq P w) = 0 →
  IS_ERR (plat_kthread_run P) = true →
  let w' := exec (ebbgpio_init P) w in
  eval (ebbgpio_init P) w = plat_kthread_run P ∧
  - MAX_ERRNO ≤ eval (ebbgpio_init P) w < 0 ∧
  task (gl w') = plat_kthread_run P ∧
  button_irq P w ∈ irq_lines (ke w') ∧
  module_pins w ⊆ exported (ke w') ∧
  led_thread (ke w') = led_thread (ke w) ∧
  last (new_calls w w') =
    Some (Kprintk KERN_ALERT "EBB LED: failed to create the task\n" []) ∧
  Forall (λ c, is_release c = false) (new_calls w w').
Proof.
  intros Hvalid Hirq Herr w'. subst w'.
  destruct (init_passed P w Hvalid)
    as (-> & -> & _ & _ & -> & -> & -> & Hlog).
  rewrite (new_calls_app _ _ _ Hlog), Hirq, Herr. cbn [Z.eqb].
  apply IS_ERR_negative in Herr. unfold PTR_ERR, module_pins.
  repeat split; try done; try lia.
  - apply elem_of_union. left. by apply elem_of_singleton.
  - intros x. rewrite !elem_of_union. tauto.
  - unfold init_calls. repeat constructor.
Qed.

Lemma init_thread_failure_leaves_irq_witness :
  let w' := exec (ebbgpio_init board_thread_fails) boot in
  IS_ERR (plat_kthread_run board_thread_fails) = true ∧
  eval (ebbgpio_init board_thread_fails) boot = - ENOMEM ∧
  button_irq board_thread_fails boot ∈ irq_lines (ke w') ∧
  button_irq board_thread_fails boot = 165.
Proof.
  intros w'.
  destruct (init_thread_failure_leaves_irq board_thread_fails boot eq_refl eq_refl eq_refl)
    as (H1 & _ & _ & H2 & _).
  exact (conj eq_refl (conj H1 (conj H2 eq_refl))).
Defined.

(** [X14].  The result of [gpio_to_irq] is not checked: a negative error
    code is stored in the unsigned [irqNumber] as that code plus 2^32, and
    [request_irq] is called for that number. *)
Theorem init_registers_wrapped_irq (P : platform) (w : world) :
  negb (gpio_is_valid P (gpioLedRED (gl w))) &&
    negb (gpio_is_valid P (gpioLedGREEN (gl w))) = false →
  - UINT_MODULUS ≤ plat_gpio_to_irq P (gpioButton (gl w)) < 0 →
  let w' := exec (ebbgpio_init P) w in
  irqNumber (gl w') = plat_gpio_to_irq P (gpioButton (gl w)) + UINT_MODULUS ∧
  Krequest_irq (irqNumber (gl w')) IRQF_TRIGGER_RISING "ebb_gpio_handler" NULL
    ∈ new_calls w w'.
Proof.
  intros Hvalid Hneg w'. subst w'.
  destruct (init_passed P w Hvalid) as (_ & -> & _ & _ & _ & _ & _ & Hlog).
  rewrite (new_calls_app _ _ _ Hlog).
  assert (Hirq : button_irq P w = plat_gpio_to_irq P (gpioButton (gl w)) + UINT_MODULUS).
  { unfold button_irq, to_uint.
    rewrite <- (Z.mod_add _ 1 UINT_MODULUS) by discriminate.
    apply Z.mod_small. lia. }
  split; [exact Hirq |].
  change (irqNumber (set_task _ (set_irqNumber (button_irq P w) (gl w))))
    with (button_irq P w).
  apply elem_of_cons. right. apply elem_of_app. left.
  unfold init_calls. apply list_elem_of_In. cbn. tauto.
Qed.

(** [gpio_to_irq] answering [-EINVAL]. *)
Lemma init_registers_wrapped_irq_witness :
  let w' := exec (ebbgpio_init board_bad_irq) boot in
  plat_gpio_to_irq board_bad_irq (gpioButton (gl boot)) = - EINVAL ∧
  irqNumber (gl w') = 4294967274 ∧
  Krequest_irq (irqNumber (gl w')) IRQF_TRIGGER_RISING "ebb_gpio_handler" NULL
    ∈ new_calls boot w'.
Proof.
  intros w'.
  assert (Hneg : - UINT_MODULUS ≤ plat_gpio_to_irq board_bad_irq (gpioButton (gl boot)) < 0)
    by (split; [discriminate | reflexivity]).
  destruct (init_registers_wrapped_irq board_bad_irq boot eq_refl Hneg) as (H1 & H2).
  exact (conj eq_refl (conj H1 H2)).
Defined.

(** [X15].  [ebbgpio_init] consults the validity of the two LED pins only
    and discards what [gpio_request] returns: two boards that agree on the
    LED pins' validity and on the answers about the button's level, its
    interrupt and the thread give the same return value, the same calls
    and the same state but for the set of pins held. *)
Theorem init_ignores_button_validity_and_requests (P P' : platform) (w : world) :
  gpio_is_valid P (gpioLedRED (gl w)) = gpio_is_valid P' (gpioLedRED (gl w)) →
  gpio_is_valid P (gpioLedGREEN (gl w)) = gpio_is_valid P' (gpioLedGREEN (gl w)) →
  plat_gpio_get_value P (gpioButton (gl w)) = plat_gpio_get_value P' (gpioButton (gl w)) →
  plat_gpio_to_irq P (gpioButton (gl w)) = plat_gpio_to_irq P' (gpioButton (gl w)) →
  plat_request_irq P (button_irq P w) = plat_request_irq P' (button_irq P w) →
  plat_kthread_run P = plat_kthread_run P' →
  let w1 := exec (ebbgpio_init P) w in
  let w2 := exec (ebbgpio_init P') w in
  eval (ebbgpio_init P) w = eval (ebbgpio_init P') w ∧
  gl w1 = gl w2 ∧
  klog (ke w1) = klog (ke w2) ∧
  pin_level (ke w1) = pin_level (ke w2) ∧
  exported (ke w1) = exported (ke w2) ∧
  irq_lines (ke w1) = irq_lines (ke w2) ∧
  led_thread (ke w1) = led_thread (ke w2).
Proof.
  intros Hr Hg Hv Hi Hq Hk w1 w2. subst w1 w2.
  assert (Hirq : button_irq P w = button_irq P' w) by (unfold button_irq; by rewrite Hi).
  destruct (negb (gpio_is_valid P (gpioLedRED (gl w))) &&
            negb (gpio_is_valid P (gpioLedGREEN (gl w)))) eqn:Hvalid.
  - unfold eval, exec. rewrite !init_rejected by (by rewrite <- ?Hr, <- ?Hg). done.
  - assert (Hvalid' : negb (gpio_is_valid P' (gpioLedRED (gl w))) &&
                      negb (gpio_is_valid P' (gpioLedGREEN (gl w))) = false)
      by (by rewrite <- Hr, <- Hg).
    destruct (init_passed P w Hvalid) as (-> & -> & -> & _ & -> & -> & -> & ->).
    destruct (init_passed P' w Hvalid') as (-> & -> & -> & _ & -> & -> & -> & ->).
    unfold init_calls. rewrite <- Hirq, <- Hq, <- Hk, <- Hv. done.
Qed.

(** [board] against a board where the button pin is invalid and every
    [gpio_request] fails: the load succeeds all the same, with no pin
    held. *)
Lemma init_ignores_button_validity_and_requests_witness :
  gpio_is_valid board_pins_taken (gpioButton (gl boot)) = false ∧
  plat_gpio_request board_pins_taken (gpioButton (gl boot)) = - EBUSY ∧
  eval (ebbgpio_init board) boot = eval (ebbgpio_init board_pins_taken) boot ∧
  klog (ke (exec (ebbgpio_init board) boot)) =
    klog (ke (exec (ebbgpio_init board_pins_taken) boot)) ∧
  led_thread (ke (exec (ebbgpio_init board) boot)) =
    led_thread (ke (exec (ebbgpio_init board_pins_taken) boot)).
Proof.
  destruct (init_ignores_button_validity_and_requests board board_pins_taken boot
              eq_refl eq_refl eq_refl eq_refl eq_refl eq_refl)
    as (H1 & _ & H2 & _ & _ & _ & H3).
  exact (conj eq_refl (conj eq_refl (conj H1 (conj H2 H3)))).
Defined.

(** ** Unloading *)

Lemma exit_state (P : platform) (w : world) :
  let w' := exec (ebbgpio_exit P) w in
  gl w' = gl w ∧
  pin_level (ke w') =
    <[gpioLedGREEN (gl w) := false]> (<[gpioLedRED (gl w) := false]> (pin_level (ke w))) ∧
  requested (ke w') =
    requested (ke w) ∖ {[gpioLedRED (gl w)]} ∖ {[gpioLedGREEN (gl w)]}
      ∖ {[gpioButton (gl w)]} ∧
  exported (ke w') =
    exported (ke w) ∖ {[gpioLedRED (gl w)]} ∖ {[gpioLedGREEN (gl w)]}
      ∖ {[gpioButton (gl w)]} ∧
  irq_lines (ke w') = irq_lines (ke w) ∖ {[irqNumber (gl w)]} ∧
  led_thread (ke w') = false.
Proof. destruct w as [[] []]. kstep. done. Qed.

Lemma exit_levels (P : platform) (w : world) :
  pin_level (ke (exec (ebbgpio_exit P) w)) !! gpioLedRED (gl w) = Some false ∧
  pin_level (ke (exec (ebbgpio_exit P) w)) !! gpioLedGREEN (gl w) = Some false.
Proof.
  destruct (exit_state P w) as (_ & -> & _). split.
  - destruct (decide (gpioLedGREEN (gl w) = gpioLedRED (gl w))) as [-> | Hne].
    + apply lookup_insert_eq.
    + rewrite lookup_insert_ne by done. apply lookup_insert_eq.
  - apply lookup_insert_eq.
Qed.

Lemma elem_of_granted (P : platform) (gpio x : Z) (held : gset Z) :
  x ∈ granted P gpio held ↔ (plat_gpio_request P gpio = 0 ∧ x = gpio) ∨ x ∈ held.
Proof.
  unfold granted. destruct (Z.eqb_spec (plat_gpio_request P gpio) 0) as [Hz | Hz].
  - rewrite elem_of_union, elem_of_singleton. tauto.
  - tauto.
Qed.

(** [X16].  Loading and unloading undo each other on the kernel's books,
    whatever interrupts and passes came between: after [ebbgpio_exit] the
    thread is stopped, both LED outputs are low, none of the three pins is
    held or exported and the button's interrupt line is free.  The pins are
    freed whether or not their request had succeeded. *)
Theorem load_unload_releases (P : platform) (sched : list kevent) (w : world) :
  negb (gpio_is_valid P (gpioLedRED (gl w))) &&
    negb (gpio_is_valid P (gpioLedGREEN (gl w))) = false →
  let w' := exec (ebbgpio_exit P) (run sched (exec (ebbgpio_init P) w)) in
  requested (ke w') = requested (ke w) ∖ module_pins w ∧
  exported (ke w') = exported (ke w) ∖ module_pins w ∧
  irq_lines (ke w') = irq_lines (ke w) ∖ {[button_irq P w]} ∧
  led_thread (ke w') = false ∧
  pin_level (ke w') !! gpioLedRED (gl w) = Some false ∧
  pin_level (ke w') !! gpioLedGREEN (gl w) = Some false.
Proof.
  intros Hvalid w'. subst w'.
  set (w1 := exec (ebbgpio_init P) w). set (w2 := run sched w1).
  destruct (init_passed P w Hvalid) as (_ & Hgl & _ & Hreq & Hexp & Hirq & _).
  fold w1 in Hgl, Hreq, Hexp, Hirq.
  destruct (run_config sched w1) as (Hr & Hg & Hb & Hn & _).
  fold w2 in Hr, Hg, Hb, Hn. rewrite Hgl in Hr, Hg, Hb, Hn.
  cbn in Hr, Hg, Hb, Hn.
  destruct (run_resources sched w1) as (Hreq2 & Hexp2 & Hirq2 & _).
  fold w2 in Hreq2, Hexp2, Hirq2.
  destruct (exit_levels P w2) as (Hlr & Hlg). rewrite Hr in Hlr. rewrite Hg in Hlg.
  destruct (exit_state P w2) as (_ & _ & -> & -> & -> & ->).
  rewrite Hr, Hg, Hb, Hn, Hreq2, Hexp2, Hirq2, Hreq, Hexp, Hirq.
  unfold module_pins. repeat split; try done.
  - apply set_eq. intros x.
    rewrite !elem_of_difference, !elem_of_granted, !elem_of_union, !elem_of_singleton.
    tauto.
  - apply set_eq. intros x.
    rewrite !elem_of_difference, !elem_of_union, !elem_of_singleton. tauto.
  - apply set_eq. intros x.
    destruct (plat_request_irq P (button_irq P w) =? 0);
      rewrite !elem_of_difference, ?elem_of_union, !elem_of_singleton; tauto.
Qed.

(** Load on [board], a pass and two presses, unload. *)
Lemma load_unload_releases_witness :
  let w' := exec (ebbgpio_exit board)
              (run [EvTick; EvIrq; EvIrq] (exec (ebbgpio_init board) boot)) in
  requested (ke boot) = ∅ ∧
  requested (ke w') = requested (ke boot) ∖ module_pins boot ∧
  led_thread (ke w') = false ∧
  pin_level (ke w') !! gpioLedRED (gl boot) = Some false ∧
  pin_level (ke w') !! gpioLedGREEN (gl boot) = Some false.
Proof.
  intros w'.
  destruct (load_unload_releases board [EvTick; EvIrq; EvIrq] boot eq_refl)
    as (H1 & _ & _ & H2 & H3 & H4).
  exact (conj eq_refl (conj H1 (conj H2 (conj H3 H4)))).
Defined.



(** [X18].  Past its validity test [ebbgpio_init] always makes the same
    calls in the same order, whatever they return: each LED pin is
    requested, then given its direction, then exported; the button pin is
    requested, made an input, debounced by 200 ms, exported and read; the
    interrupt is requested on the rising edge and the thread is started
    last.  Only a failed thread creation adds a call, the alert. *)
Theorem init_call_sequence (P : platform) (w : world) :
  negb (gpio_is_valid P (gpioLedRED (gl w))) &&
    negb (gpio_is_valid P (gpioLedGREEN (gl w))) = false →
  let red := gpioLedRED (gl w) in
  let green := gpioLedGREEN (gl w) in
  let button := gpioButton (gl w) in
  let irq := to_uint (plat_gpio_to_irq P button) in
  new_calls w (exec (ebbgpio_init P) w) =
    [ Kprintk KERN_INFO "GPIO_TEST: Initializing the GPIO_TEST LKM\n" [];
      Kgpio_request red "sysfs";
      Kgpio_request green "sysfs";
      Kgpio_direction_output red (currentStateLedRED (gl w));
      Kgpio_direction_output green (currentStateLedGREEN (gl w));
      Kgpio_export red false;
      Kgpio_export green false;
      Kgpio_request button "sysfs";
      Kgpio_direction_input button;
      Kgpio_set_debounce button 200;
      Kgpio_export button false;
      Kgpio_get_value button;
      Kprintk KERN_INFO "GPIO_TEST: The button state is currently: %d\n"
        [plat_gpio_get_value P button];
      Kgpio_to_irq button;
      Kprintk KERN_INFO "GPIO_TEST: The button is mapped to IRQ: %d\n" [irq];
      Krequest_irq irq IRQF_TRIGGER_RISING "ebb_gpio_handler" NULL;
      Kprintk KERN_INFO "GPIO_TEST: The interrupt request result is: %d\n"
        [plat_request_irq P irq];
      Kkthread_run "LED_thread" ] ++
    (if IS_ERR (plat_kthread_run P)
     then [Kprintk KERN_ALERT "EBB LED: failed to create the task\n" []]
     else []).
Proof.
  intros Hvalid red green button irq. subst red green button irq.
  destruct (init_passed P w Hvalid) as (_ & _ & _ & _ & _ & _ & _ & Hlog).
  rewrite (new_calls_app _ _ _ Hlog). reflexivity.
Qed.

(** The calls of a load on [board]: eighteen, the thread started last. *)
Lemma init_call_sequence_witness :
  length (new_calls boot (exec (ebbgpio_init board) boot)) = 18%nat ∧
  last (new_calls boot (exec (ebbgpio_init board) boot)) =
    Some (Kkthread_run "LED_thread").
Proof.
  rewrite (init_call_sequence board boot eq_refl). split; reflexivity.
Defined.
